(** * smtpmini: the session engine, the spool queue, the delivery client
      and the retry scheduler of go-smtp-server, as a shallow embedding.

    Go strings are byte strings: they are modelled by [string], one
    [ascii] per byte.  Go's [int], [int64] and [time.Duration] are 64-bit
    two's-complement integers: they are modelled by [Z] with the wrap-around
    written out ([wrap64]).  A [time.Time] is modelled by the number of
    nanoseconds since the Unix epoch, an unbounded [Z]. *)

From Stdlib Require Import ZArith Lia Bool Ascii String List.
From stdpp Require Import base gmap strings list fin_maps pretty.

Local Open Scope string_scope.
Local Open Scope Z_scope.

(** ** The part of Go's [strings] package the program uses *)

Module GoStrings.

Definition CR : ascii := "013"%char.
Definition LF : ascii := "010"%char.
Definition CRLF : string := String CR (String LF EmptyString).

(** [len(s)], as an [int]. *)
Definition len (s : string) : Z := Z.of_nat (String.length s).

(** [strings.HasPrefix(s, prefix)]. *)
Fixpoint HasPrefix (s prefix : string) {struct prefix} : bool :=
  match prefix, s with
  | EmptyString, _ => true
  | String p prefix', String c s' => if ascii_dec c p then HasPrefix s' prefix' else false
  | String _ _, EmptyString => false
  end.

(** [s[n:]] for an [n] that is in range. *)
Fixpoint drop_bytes (n : nat) (s : string) : string :=
  match n, s with
  | O, _ => s
  | S n', String _ s' => drop_bytes n' s'
  | S _, EmptyString => EmptyString
  end.

(** [s[:n]] for an [n] that is in range. *)
Fixpoint take_bytes (n : nat) (s : string) : string :=
  match n, s with
  | O, _ => EmptyString
  | S n', String c s' => String c (take_bytes n' s')
  | S _, EmptyString => EmptyString
  end.

(** [strings.HasSuffix(s, suffix)]. *)
Definition HasSuffix (s suffix : string) : bool :=
  (String.length suffix <=? String.length s)%nat &&
  bool_decide (drop_bytes (String.length s - String.length suffix) s = suffix).

(** [strings.Contains(s, substr)]. *)
Fixpoint Contains (s substr : string) : bool :=
  HasPrefix s substr ||
  match s with
  | EmptyString => false
  | String _ s' => Contains s' substr
  end.

(** [strings.Index(s, substr)], [None] standing for [-1]. *)
Fixpoint Index (s substr : string) : option nat :=
  if HasPrefix s substr then Some O
  else match s with
       | EmptyString => None
       | String _ s' => S <$> Index s' substr
       end.

(** [strings.LastIndexByte(s, c)], as the [int] Go returns ([-1] when the
    byte does not occur). *)
Fixpoint LastIndexByte (s : string) (c : ascii) : Z :=
  match s with
  | EmptyString => -1
  | String b s' =>
      let i := LastIndexByte s' c in
      if (0 <=? i) then i + 1
      else if ascii_dec b c then 0 else -1
  end.

(** [strings.SplitN(s, sep, 2)] for a non-empty separator. *)
Definition SplitN2 (s sep : string) : list string :=
  match Index s sep with
  | None => [s]
  | Some i => [take_bytes i s; drop_bytes (i + String.length sep) s]
  end.

(** The upper-case mapping on one byte.  Only the ASCII letters are
    mapped; bytes of multi-byte UTF-8 sequences are left as they are. *)
Definition upper_byte (c : ascii) : ascii :=
  let n := nat_of_ascii c in
  if ((97 <=? n) && (n <=? 122))%nat then ascii_of_nat (n - 32) else c.

(** [strings.ToUpper(s)] on ASCII text. *)
Fixpoint ToUpper (s : string) : string :=
  match s with
  | EmptyString => EmptyString
  | String c s' => String (upper_byte c) (ToUpper s')
  end.

(** White space in the sense of [unicode.IsSpace], restricted to the
    one-byte code points: tab, line feed, vertical tab, form feed,
    carriage return and space. *)
Definition is_space_byte (c : ascii) : bool :=
  let n := nat_of_ascii c in
  ((9 <=? n) && (n <=? 13) || (n =? 32))%nat.

Fixpoint trim_left_space (s : string) : string :=
  match s with
  | EmptyString => EmptyString
  | String c s' => if is_space_byte c then trim_left_space s' else s
  end.

Fixpoint trim_right_space (s : string) : string :=
  match s with
  | EmptyString => EmptyString
  | String c s' =>
      match trim_right_space s' with
      | EmptyString => if is_space_byte c then EmptyString else String c EmptyString
      | t => String c t
      end
  end.

(** [strings.TrimSpace(s)]. *)
Definition TrimSpace (s : string) : string :=
  trim_right_space (trim_left_space s).

(** [strings.TrimPrefix(s, prefix)]. *)
Definition TrimPrefix (s prefix : string) : string :=
  if HasPrefix s prefix then drop_bytes (String.length prefix) s else s.

(** [strings.TrimSuffix(s, suffix)]. *)
Definition TrimSuffix (s suffix : string) : string :=
  if HasSuffix s suffix
  then take_bytes (String.length s - String.length suffix) s
  else s.

(** [strings.Join(elems, sep)]. *)
Fixpoint Join (elems : list string) (sep : string) : string :=
  match elems with
  | [] => EmptyString
  | [e] => e
  | e :: rest => e ++ sep ++ Join rest sep
  end.

(** [strings.ReplaceAll(s, old, new)] for a non-empty [old]: the
    occurrences of [old] are found from left to right and do not overlap.
    [skip] counts the bytes of the occurrence just replaced that are still
    to be passed over. *)
Fixpoint replace_from (skip : nat) (s old new : string) : string :=
  match s with
  | EmptyString => EmptyString
  | String c s' =>
      match skip with
      | S k => replace_from k s' old new
      | O =>
          if HasPrefix s old
          then new ++ replace_from (String.length old - 1) s' old new
          else String c (replace_from O s' old new)
      end
  end.

Definition ReplaceAll (s old new : string) : string :=
  replace_from O s old new.

End GoStrings.

Import GoStrings.

(** Go's [error] values are kept as their descriptions. *)
Definition error := string.

(** ** The session engine (protocol.go) *)

Module Protocol.

(** [type session struct]. *)
Record session := mkSession {
  from : string;
  rcpts : list string;
  data : list string;
  step : string;
  secure : bool
}.

(** The value [&session{}] a connection starts with. *)
Definition session0 : session := mkSession "" [] [] "" false.

(** [func (s *session) reset()]. *)
Definition reset (s : session) : session :=
  mkSession "" [] [] "" (secure s).

(** [func parseCmd(line string) (cmd, arg string)]. *)
Definition parseCmd (line : string) : string * string :=
  match SplitN2 line " " with
  | [p0; p1] => (ToUpper p0, p1)
  | p0 :: _ => (ToUpper p0, "")
  | [] => ("", "")
  end.

(** [func stripAddr(v string) string]. *)
Definition stripAddr (v : string) : string :=
  TrimSuffix (TrimPrefix (TrimSpace v) "<") ">".

(** A [bufio.Scanner] with the default line splitter, seen from its
    reader: the lines it will still deliver, and the error [Err()] reports
    once they are used up ([None] when the stream simply ends). *)
Record Scanner := mkScanner {
  pending : list string;
  final : option error
}.

(** [r.Scan()] followed by [r.Text()]: [None] when [Scan] returns false. *)
Definition Scan (r : Scanner) : option (string * Scanner) :=
  match pending r with
  | [] => None
  | l :: rest => Some (l, mkScanner rest (final r))
  end.

(** What the handler does to the outside, in order. *)
Inductive event :=
  | Wrote (line : string)
  | Handshake
  | QueueMessage (sender : string) (recipients : list string) (body : string).

(** The peer's side of a STARTTLS upgrade: how the handshake ends, and the
    lines that arrive on the encrypted stream afterwards. *)
Record TLSPeer := mkTLSPeer {
  handshake : option error;
  tls_stream : Scanner
}.

(** [func upgradeToTLS]: on success the new scanner and the session. *)
Definition upgradeToTLS (p : TLSPeer) (s : session) : error + Scanner * session :=
  match handshake p with
  | Some e => inl e
  | None =>
      let s1 := mkSession (from s) (rcpts s) (data s) (step s) true in
      inr (tls_stream p, reset s1)
  end.

(** The read loop of [handleDATA]: the session after the loop, the lines
    left unread, and whether the loop was left through [break]. *)
Fixpoint collect (s : session) (lines : list string) : session * list string * bool :=
  match lines with
  | [] => (s, [], false)
  | l :: rest =>
      if String.eqb l "." then (s, rest, true)
      else collect (mkSession (from s) (rcpts s) (data s ++ [l]) (step s) (secure s)) rest
  end.

(** [func handleDATA(s *session, r *bufio.Scanner) (body string, err error)]. *)
Definition handleDATA (s : session) (r : Scanner)
  : (string * option error) * session * Scanner :=
  let '(s', rest, dot) := collect s (pending r) in
  let r' := mkScanner rest (final r) in
  match (if dot then None else final r) with
  | Some e => (("", Some e), s', r')
  | None => ((Join (data s') CRLF ++ CRLF, None), s', r')
  end.

(** How one turn of the command loop ends. *)
Inductive next :=
  | Continue (s : session) (r : Scanner)
  | Return.

(** The [switch cmd] of [handleConn]. *)
Definition dispatch (p : TLSPeer) (s : session) (r : Scanner) (cmd arg : string)
  : list event * next :=
  if String.eqb cmd "EHLO" then
    if negb (secure s)
    then ([Wrote "250-smtpmini"; Wrote "250-STARTTLS"; Wrote "250 HELP"], Continue s r)
    else ([Wrote "250 smtpmini"], Continue s r)
  else if String.eqb cmd "HELO" then
    ([Wrote "250 Hello"], Continue (reset s) r)
  else if String.eqb cmd "STARTTLS" then
    if secure s then ([Wrote "503 Already under TLS"], Continue s r)
    else
      match upgradeToTLS p s with
      | inl _ => ([Wrote "220 Ready to start TLS"; Handshake], Return)
      | inr (r', s') => ([Wrote "220 Ready to start TLS"; Handshake], Continue s' r')
      end
  else if String.eqb cmd "MAIL" then
    if negb (HasPrefix (ToUpper arg) "FROM:")
    then ([Wrote "501 Syntax: MAIL FROM:<address>"], Continue s r)
    else
      let s1 := reset s in
      ([Wrote "250 OK"],
       Continue (mkSession (stripAddr (drop_bytes 5 arg)) (rcpts s1) (data s1) "mail" (secure s1)) r)
  else if String.eqb cmd "RCPT" then
    if String.eqb (step s) "" then ([Wrote "503 Need MAIL FROM first"], Continue s r)
    else if negb (HasPrefix (ToUpper arg) "TO:")
    then ([Wrote "501 Syntax: RCPT TO:<address>"], Continue s r)
    else
      ([Wrote "250 OK"],
       Continue (mkSession (from s) (rcpts s ++ [stripAddr (drop_bytes 3 arg)]) (data s) "rcpt" (secure s)) r)
  else if String.eqb cmd "DATA" then
    if negb (String.eqb (step s) "rcpt") then ([Wrote "503 Need RCPT TO first"], Continue s r)
    else
      match handleDATA s r with
      | ((_, Some _), s', r') =>
          ([Wrote "354 End with <CRLF>.<CRLF>"; Wrote "500 Error reading DATA"], Continue s' r')
      | ((body, None), s', r') =>
          ([Wrote "354 End with <CRLF>.<CRLF>"; QueueMessage (from s') (rcpts s') body; Wrote "250 Queued"],
           Continue (reset s') r')
      end
  else if String.eqb cmd "QUIT" then
    ([Wrote "221 Bye"], Return)
  else
    ([Wrote "500 Unrecognised command"], Continue s r).

(** One turn of the [for] loop of [handleConn]. *)
Definition turn (p : TLSPeer) (s : session) (r : Scanner) : list event * next :=
  match Scan r with
  | None => ([], Return)
  | Some (line, r') =>
      let '(cmd, arg) := parseCmd line in
      dispatch p s r' cmd arg
  end.

(** The [for] loop of [handleConn]; [None] when [fuel] turns were not
    enough to reach the end of the connection. *)
Fixpoint serve (fuel : nat) (p : TLSPeer) (s : session) (r : Scanner)
  : option (list event) :=
  match fuel with
  | O => None
  | S fuel' =>
      match turn p s r with
      | (evs, Return) => Some evs
      | (evs, Continue s' r') => (evs ++.) <$> serve fuel' p s' r'
      end
  end.

(** [func handleConn(c net.Conn, tlsCfg *tls.Config)]: [c] delivers the
    lines of [r] in the clear and behaves as [p] on an upgrade. *)
Definition handleConn (fuel : nat) (r : Scanner) (p : TLSPeer) : option (list event) :=
  (Wrote "220 smtpmini ESMTP ready" ::.) <$> serve fuel p session0 r.

(** The invariant behind the queue's non-empty recipient lists: in the
    recipient step the session holds at least one recipient. *)
Definition rcpt_step_has_recipient (s : session) : Prop :=
  step s = "rcpt" -> rcpts s <> [].

Definition queues_with_recipients (evs : list event) : Prop :=
  forall sender recipients body,
    In (QueueMessage sender recipients body) evs -> recipients <> [].

(** What is left to read: the lines of the current stream and, as long as
    the upgrade has not happened, those of the encrypted stream. *)
Definition lines_left (p : TLSPeer) (s : session) (r : Scanner) : nat :=
  (List.length (pending r) +
   if secure s then 0 else S (List.length (pending (tls_stream p))))%nat.

End Protocol.

Import Protocol.

(** ** Machine integers and time *)

(** The value a 64-bit two's-complement register holds after an operation
    whose mathematical result is [z]. *)
Definition wrap64 (z : Z) : Z := (z + 2^63) mod 2^64 - 2^63.

(** A [time.Time]: nanoseconds since the Unix epoch. *)
Definition Time := Z.

(** [time.Minute], a [time.Duration] (nanoseconds in an [int64]). *)
Definition Minute : Z := 60000000000.

(** The zero [time.Time], January 1 of year 1. *)
Definition zeroTime : Time := -62135596800000000000.

(** The wall clock: the readings successive calls of [time.Now()] return,
    and how many calls were made. *)
Record Clock := mkClock {
  reading : nat -> Time;
  ticks : nat
}.

(** [time.Now()]. *)
Definition Now (c : Clock) : Time * Clock :=
  (reading c (ticks c), mkClock (reading c) (S (ticks c))).


(** ** The spool queue (deliver.go, queue helpers) *)

Module Queue.

(** [type Message struct]: what is stored on disk. *)
Record Message := mkMessage {
  ID : string;
  From : string;
  Rcpts : list string;
  Data : string;
  Attempts : Z;
  LastError : string;
  NextTry : Time
}.

(** The spool directory: the records of its files, by file name.
    [filepath.Join(spoolDir, id)] names the file [id] of the directory. *)
Abbreviation Spool := (gmap string Message).

(** [fmt.Sprintf("%d-%s.json", nano, strings.ReplaceAll(from, "@", "_"))]. *)
Definition file_name (nano : Z) (sender : string) : string :=
  pretty nano ++ "-" ++ ReplaceAll sender "@" "_" ++ ".json".

Section Store.

(** Whether [os.Create] followed by the encoder's write succeeds on a
    file of the spool directory. *)
Variable writable : string -> bool.

(** [func enqueue(m *Message) error]: the error, [m] as the call leaves
    it, the spool and the clock. *)
Definition enqueue (c : Clock) (spool : Spool) (m : Message)
  : option error * Message * Spool * Clock :=
  let '(t1, c1) := Now c in
  let m1 := mkMessage (file_name (wrap64 t1) (From m))
                      (From m) (Rcpts m) (Data m) (Attempts m) (LastError m) (NextTry m) in
  let '(t2, c2) := Now c1 in
  let m2 := mkMessage (ID m1) (From m1) (Rcpts m1) (Data m1) (Attempts m1) (LastError m1) t2 in
  if writable (ID m2)
  then (None, m2, <[ID m2 := m2]> spool, c2)
  else (Some ("open " ++ ID m2), m2, spool, c2).




(** [func queueMessage(from string, rcpts []string, data string)]: the
    spool and the clock after the call. *)
Definition queueMessage (c : Clock) (spool : Spool)
    (sender : string) (recipients : list string) (body : string) : Spool * Clock :=
  let msg := mkMessage "" sender recipients body 0 "" zeroTime in
  match enqueue c spool msg with
  | (_, _, spool', c') => (spool', c')
  end.

End Store.



End Queue.

Import Queue.

(** ** The delivery client (deliver.go, outbound SMTP) *)

Module Delivery.

(** A [textproto.Conn] seen from its user: the lines the peer will still
    send (without their line ends), the error a read reports once they are
    used up, the lines written so far, and how many more writes succeed
    ([None]: all of them). *)
Record Conn := mkConn {
  rx : list string;
  rx_end : error;
  tx : list string;
  tx_room : option nat
}.

(** The bytes [tx] put on the wire: [PrintfLine] ends each line with CRLF. *)
Definition wire (lines : list string) : string :=
  foldr (fun l acc => l ++ CRLF ++ acc) "" lines.

(** A step of the dialogue: an error or a value, and the connection. *)
Definition Dlg (A : Type) : Type := Conn -> (error + A) * Conn.

Definition ret {A : Type} (a : A) : Dlg A := fun tp => (inr a, tp).

(** [if err := ma; err != nil { return err }], then [f]. *)
Definition bind {A B : Type} (ma : Dlg A) (f : A -> Dlg B) : Dlg B := fun tp =>
  match ma tp with
  | (inl e, tp') => (inl e, tp')
  | (inr a, tp') => f a tp'
  end.

Notation "x <~ a >> b" := (bind a (fun x => b))
  (at level 100, a at next level, right associativity).
Notation "a >> b" := (bind a (fun _ => b))
  (at level 100, right associativity).

(** [tp.PrintfLine(format, args...)], [line] being the formatted text. *)
Definition PrintfLine (line : string) : Dlg unit := fun tp =>
  match tx_room tp with
  | Some O => (inl "write: broken pipe", tp)
  | Some (S n) => (inr tt, mkConn (rx tp) (rx_end tp) (tx tp ++ [line]) (Some n))
  | None => (inr tt, mkConn (rx tp) (rx_end tp) (tx tp ++ [line]) None)
  end.

(** [tp.ReadLine()]. *)
Definition ReadLine : Dlg string := fun tp =>
  match rx tp with
  | [] => (inl (rx_end tp), tp)
  | l :: rest => (inr l, mkConn rest (rx_end tp) (tx tp) (tx_room tp))
  end.

(** The [for] loop of [ehlo]: the named results [supportsTLS] and [err]
    at the return, and the lines left unread. *)
Fixpoint ehlo_loop (supportsTLS : bool) (rx_end : error) (lines : list string)
  : (bool * option error) * list string :=
  match lines with
  | [] => ((supportsTLS, Some rx_end), [])
  | line :: rest =>
      if HasPrefix line "250-" then
        ehlo_loop (if Contains line "STARTTLS" then true else supportsTLS) rx_end rest
      else if HasPrefix line "250 " then
        (((if Contains line "STARTTLS" then true else supportsTLS), None), rest)
      else ((false, Some ("unexpected EHLO line: " ++ line)), rest)
  end.

(** [func ehlo(tp *textproto.Conn) (supportsTLS bool, err error)]. *)
Definition ehlo (tp : Conn) : (bool * option error) * Conn :=
  match PrintfLine "EHLO smtpmini.local" tp with
  | (inl e, tp') => ((false, Some e), tp')
  | (inr _, tp') =>
      let '(res, rest) := ehlo_loop false (rx_end tp') (rx tp') in
      (res, mkConn rest (rx_end tp') (tx tp') (tx_room tp'))
  end.

(** The EHLO exchange as the earlier revision of [deliver] has it inline:
    one line is read, the errors of the write and of the read are dropped.
    [inl] is the return with EHLO rejected. *)
Definition ehlo_first_line (tp : Conn) : (error + bool) * Conn :=
  let tp1 := snd (PrintfLine "EHLO smtpmini.local" tp) in
  let '(line, tp2) := match ReadLine tp1 with
                      | (inl _, tp') => ("", tp')
                      | (inr l, tp') => (l, tp')
                      end in
  if negb (HasPrefix line "250") then (inl "EHLO rejected", tp2)
  else (inr (Contains line "STARTTLS"), tp2).

(** [ehlo] as a step of the dialogue. *)
Definition ehlo_step : Dlg bool := fun tp =>
  match ehlo tp with
  | ((_, Some e), tp') => (inl e, tp')
  | ((b, None), tp') => (inr b, tp')
  end.

(** The dot-stuffing of [deliver]:
    [strings.ReplaceAll(m.Data, "\n.", "\n..")]. *)
Definition dotted (content : string) : string :=
  ReplaceAll content (String LF ".") (String LF "..").


(** [net.JoinHostPort(host, port)]. *)
Definition JoinHostPort (host port : string) : string :=
  if Contains host ":"
  then "[" ++ host ++ "]:" ++ port
  else host ++ ":" ++ port.

(** The network as one delivery attempt meets it. *)
Record Net := mkNet {
  LookupMX : string -> option (list string);
  DialTimeout : string -> error + Conn;
  tlsClient : string -> Conn -> error + Conn
}.

(** How a call of [deliver] ends: a run-time panic, or a return. *)
Inductive outcome :=
  | Panicked
  | Returned (err : option error).

Section Deliver.

(** [tp.ReadResponse(expect)] of net/textproto, with the code and the
    message dropped as the closure [read] of [deliver] does. *)
Variable ReadResponse : Z -> Dlg unit.

(** The [for _, rcpt := range m.Rcpts] loop of [deliver]. *)
Fixpoint send_rcpts (recipients : list string) : Dlg unit :=
  match recipients with
  | [] => ret tt
  | rcpt :: rest =>
      PrintfLine ("RCPT TO:<" ++ rcpt ++ ">") >>
      ReadResponse 250 >>
      send_rcpts rest
  end.

(** Steps 4 and 5 of [deliver]: the envelope and the content. *)
Definition transfer (m : Message) : Dlg unit :=
  PrintfLine ("MAIL FROM:<" ++ From m ++ ">") >>
  ReadResponse 250 >>
  send_rcpts (Rcpts m) >>
  PrintfLine "DATA" >>
  ReadResponse 354 >>
  PrintfLine (dotted (Data m) ++ CRLF ++ ".") >>
  ReadResponse 250 >>
  (fun tp => (inr tt, snd (PrintfLine "QUIT" tp))).

(** The body of [if supportsTLS { ... }] in [deliver], and the rest of
    the dialogue on the encrypted connection. *)
Definition upgrade (net : Net) (host : string) (m : Message) : Dlg unit :=
  PrintfLine "STARTTLS" >>
  ReadResponse 220 >>
  (fun tp =>
     match tlsClient net host tp with
     | inl e => (inl e, tp)
     | inr tp' => (ehlo_step >> transfer m) tp'
     end).

(** Step 3 of [deliver]: EHLO and the upgrade, then the rest. *)
Definition dialogue (net : Net) (host : string) (m : Message) : Dlg unit :=
  ReadResponse 220 >>
  supportsTLS <~ ehlo_step >>
  if (supportsTLS : bool) then upgrade net host m else transfer m.

(** The domain [deliver] asks the MX records of; [None] when indexing
    [m.Rcpts[0]] panics. *)
Definition mx_domain (m : Message) : option string :=
  r0 ← Rcpts m !! 0%nat;
  Some (drop_bytes (Z.to_nat (LastIndexByte r0 "@"%char + 1)) r0).

(** [func deliver(m *Message) error]. *)
Definition deliver (net : Net) (m : Message) : outcome :=
  match mx_domain m with
  | None => Panicked
  | Some domain =>
      let host := match LookupMX net domain with
                  | Some (h :: _) => h
                  | _ => ""
                  end in
      if String.eqb host "" then Returned (Some ("no MX found for " ++ domain))
      else
        match DialTimeout net (JoinHostPort host "25") with
        | inl e => Returned (Some e)
        | inr conn =>
            match dialogue net host m conn with
            | (inl e, _) => Returned (Some e)
            | (inr _, _) => Returned None
            end
        end
  end.

End Deliver.

End Delivery.

Import Delivery.

(** ** The retry scheduler (deliver.go, launchScheduler) *)

Module Scheduler.

(** [time.Duration(attempts*15) * time.Minute]: the product in [int],
    then the product in [time.Duration]. *)
Definition backoff (attempts : Z) : Z :=
  wrap64 (wrap64 (attempts * 15) * Minute).

(** [m] after the failure branch of the scheduler at time [now]:
    [m.Attempts++], [m.LastError = err.Error()],
    [m.NextTry = now.Add(backoff)]. *)
Definition deferred (now : Time) (e : error) (m : Message) : Message :=
  let attempts := wrap64 (Attempts m + 1) in
  mkMessage (ID m) (From m) (Rcpts m) (Data m) attempts e (now + backoff attempts).

(** The largest counter, in absolute value, whose backoff fits a
    [time.Duration]. *)
Definition max_backoff_attempts : Z := 10248191.

Section Cycle.

Variable writable : string -> bool.
Variable ReadResponse : Z -> Dlg unit.

(** The network each record's delivery attempt meets. *)
Variable net : Message -> Net.




End Cycle.

End Scheduler.

Import Scheduler.

(** ** The wire, as the inbound scanner splits it *)

Module Wire.

(** [dropCR] of bufio: a final carriage return is dropped. *)
Fixpoint dropCR (line : string) : string :=
  match line with
  | EmptyString => EmptyString
  | String c EmptyString => if ascii_dec c CR then EmptyString else line
  | String c rest => String c (dropCR rest)
  end.

(** [bufio.ScanLines] applied until the end of the stream: [line] holds
    the bytes of the current line read so far.  A last line without a
    line feed is delivered when it is not empty. *)
Fixpoint ScanLines (line bytes : string) : list string :=
  match bytes with
  | EmptyString => if String.eqb line "" then [] else [dropCR line]
  | String c rest =>
      if ascii_dec c LF then dropCR line :: ScanLines "" rest
      else ScanLines (line ++ String c "") rest
  end.


End Wire.

Import Wire.

(** ** A small world to run the program in *)

Module Sample.

(** A reader for replies of one line: the reply is accepted when it
    starts with the expected code and a space. *)
Definition line_reply (expect : Z) : Dlg unit := fun tp =>
  match ReadLine tp with
  | (inl e, tp') => (inl e, tp')
  | (inr l, tp') =>
      if HasPrefix l (pretty expect ++ " ") then (inr tt, tp')
      else (inl ("unexpected reply: " ++ l), tp')
  end.

(** A peer that accepts one message without offering the upgrade. *)
Definition accepting_peer : Conn :=
  mkConn ["220 mx.d ESMTP"; "250-mx.d"; "250 HELP"; "250 OK"; "250 OK";
          "354 go ahead"; "250 queued"; "221 bye"] "EOF" [] None.

(** A network in which only the domain d has a mail exchanger. *)
Definition net_d : Net :=
  mkNet (fun domain => if String.eqb domain "d" then Some ["mx.d"] else None)
        (fun addr => if String.eqb addr "mx.d:25" then inr accepting_peer
                     else inl "dial: connection refused")
        (fun _ _ => inl "tls: handshake failure").

(** A clock that advances by one nanosecond at each reading. *)
Definition clock_from (t0 : Time) : Clock :=
  mkClock (fun i => t0 + Z.of_nat i) O.

Definition to_d : Message :=
  mkMessage "5-a_b.json" "a@b" ["c@d"] ("hi" ++ CRLF) 0 "" 5.

Definition to_nowhere : Message :=
  mkMessage "7-a_b.json" "a@b" ["c@nowhere"] ("hi" ++ CRLF) 2 "" 7.

(** A record without recipients, as a spool file can hold it. *)
Definition to_nobody : Message :=
  mkMessage "1-a_b.json" "a@b" [] "" 0 "" 1.


(** A spool with a record for each of the two. *)
Definition two_records : Spool :=
  <["5-a_b.json" := to_d]> {["7-a_b.json" := to_nowhere]}.

(** A peer that offers the upgrade. *)
Definition offering_peer : Conn :=
  mkConn ["220 mx.d ESMTP"; "250-mx.d"; "250-STARTTLS"; "250 HELP"; "220 go ahead"]
         "EOF" [] None.


End Sample.

Import Sample.

(** ** Notions the further properties are stated with *)

(** The byte does not occur in the string. *)
Fixpoint lacks (c : ascii) (s : string) : Prop :=
  match s with
  | EmptyString => True
  | String b s' => b <> c /\ lacks c s'
  end.

(** Every byte of the string is white space. *)
Fixpoint all_space (s : string) : Prop :=
  match s with
  | EmptyString => True
  | String b s' => is_space_byte b = true /\ all_space s'
  end.

(** The command lines of one mail transaction, as a client sends them. *)
Definition rcpt_lines (recipients : list string) : list string :=
  (fun r => "RCPT TO:<" ++ r ++ ">") <$> recipients.

Definition transaction (sender : string) (recipients body : list string) : list string :=
  ("MAIL FROM:<" ++ sender ++ ">") :: rcpt_lines recipients ++ "DATA" :: body ++ ["."].

(** The lines the handler writes, in order. *)
Definition replies (evs : list event) : list string :=
  flat_map (fun ev => match ev with Wrote l => [l] | _ => [] end) evs.

(** The texts of [handleConn]'s calls of [writeLine]. *)
Definition reply_texts : list string :=
  ["220 smtpmini ESMTP ready"; "250-smtpmini"; "250-STARTTLS"; "250 HELP";
   "250 smtpmini"; "250 Hello"; "503 Already under TLS"; "220 Ready to start TLS";
   "501 Syntax: MAIL FROM:<address>"; "250 OK"; "503 Need MAIL FROM first";
   "501 Syntax: RCPT TO:<address>"; "503 Need RCPT TO first";
   "354 End with <CRLF>.<CRLF>"; "500 Error reading DATA"; "250 Queued";
   "221 Bye"; "500 Unrecognised command"].

(** After every line feed of the text there is no period, or there are
    two. *)
Fixpoint stuffed (t : string) : bool :=
  match t with
  | EmptyString => true
  | String c t' =>
      (if ascii_dec c LF then implb (HasPrefix t' ".") (HasPrefix t' "..") else true)
      && stuffed t'
  end.

(** A reader leaves what was written, and the room to write, alone. *)
Definition reads_only (ReadResponse : Z -> Dlg unit) : Prop :=
  forall expect tp,
    tx (snd (ReadResponse expect tp)) = tx tp
    /\ tx_room (snd (ReadResponse expect tp)) = tx_room (tp).

(** The lines of a complete transfer, in order. *)
Definition envelope_and_content (m : Message) : list string :=
  ("MAIL FROM:<" ++ From m ++ ">")
  :: ((fun r => "RCPT TO:<" ++ r ++ ">") <$> Rcpts m)
  ++ ["DATA"; dotted (Data m) ++ CRLF ++ "."].

(** [c] writes lines of [L ++ T] in order, stopping early when it fails
    and reaching at least the end of [L] when it succeeds. *)
Definition writes (c : Dlg unit) (L T : list string) : Prop :=
  forall tp, exists w,
    tx (snd (c tp)) = (tx tp ++ w)%list
    /\ w `prefix_of` (L ++ T)%list
    /\ (forall u, fst (c tp) = inr u -> L `prefix_of` w).

(** The calls of [queueMessage] a connection makes, run on the spool. *)
Fixpoint queue_events (writable : string -> bool) (c : Clock) (spool : Spool)
    (evs : list event) : Spool * Clock :=
  match evs with
  | [] => (spool, c)
  | QueueMessage sender recipients body :: evs' =>
      let '(spool', c') := queueMessage writable c spool sender recipients body in
      queue_events writable c' spool' evs'
  | _ :: evs' => queue_events writable c spool evs'
  end.



(** The session a turn hands on, if any, is secure. *)
Definition stays_secure (nxt : next) : Prop :=
  match nxt with
  | Continue s' _ => secure s' = true
  | Return => True
  end.


(** * Properties *)

(** ** The definitions at work *)

Example SplitN2_mail : SplitN2 "MAIL FROM:<a@b>" " " = ["MAIL"; "FROM:<a@b>"].
Proof. reflexivity. Qed.

Example ReplaceAll_ex :
  ReplaceAll ("a" ++ CRLF ++ ".b" ++ CRLF) (String LF ".") (String LF "..")
  = "a" ++ CRLF ++ "..b" ++ CRLF.
Proof. reflexivity. Qed.

Example LastIndexByte_ex : LastIndexByte "c@d@e" "@"%char = 3.
Proof. reflexivity. Qed.

Example conversation :
  handleConn 20
    (mkScanner ["EHLO x"; "STARTTLS"] None)
    (mkTLSPeer None
       (mkScanner ["EHLO x"; "MAIL FROM:<a@b>"; "rcpt to: <c@d> "; "DATA";
                   "Subject: hi"; ""; "body"; "."; "QUIT"] None))
  = Some [Wrote "220 smtpmini ESMTP ready";
          Wrote "250-smtpmini"; Wrote "250-STARTTLS"; Wrote "250 HELP";
          Wrote "220 Ready to start TLS"; Handshake;
          Wrote "250 smtpmini"; Wrote "250 OK"; Wrote "250 OK";
          Wrote "354 End with <CRLF>.<CRLF>";
          QueueMessage "a@b" ["c@d"] ("Subject: hi" ++ CRLF ++ CRLF ++ "body" ++ CRLF);
          Wrote "250 Queued"; Wrote "221 Bye"].
Proof. vm_compute. reflexivity. Qed.

Example file_name_ex : file_name 1700000000000000001 "a@b" = "1700000000000000001-a_b.json".
Proof. vm_compute. reflexivity. Qed.

Example ScanLines_ex :
  ScanLines "" ("DATA" ++ CRLF ++ "a" ++ CRLF ++ ".." ++ CRLF ++ "." ++ CRLF ++ "QUIT")
  = ["DATA"; "a"; ".."; "."; "QUIT"].
Proof. reflexivity. Qed.


(** ** The session engine *)

Section SessionEngine.

Implicit Types (s : session) (r : Scanner) (p : TLSPeer).

Lemma turn_line p s line rest fin :
  turn p s (mkScanner (line :: rest) fin)
  = dispatch p s (mkScanner rest fin) (fst (parseCmd line)) (snd (parseCmd line)).
Proof.
  unfold turn, Scan. simpl. destruct (parseCmd line). reflexivity.
Qed.

(** The read loop of the data phase touches the body lines only. *)
Lemma collect_fields s lines :
  let s' := fst (fst (collect s lines)) in
  from s' = from s /\ rcpts s' = rcpts s /\ step s' = step s /\ secure s' = secure s.
Proof.
  revert s. induction lines as [|l rest IH]; intros s; simpl; [tauto|].
  destruct (String.eqb l "."); simpl; [tauto|].
  apply (IH (mkSession _ _ _ _ _)).
Qed.

(** Lines other than the terminator are appended as they are, and the
    loop stops at the first terminator. *)
Lemma collect_until_dot s lines rest :
  Forall (fun l => l <> ".") lines ->
  collect s (lines ++ "." :: rest)
  = (mkSession (from s) (rcpts s) (data s ++ lines) (step s) (secure s), rest, true).
Proof.
  revert s. induction lines as [|l ls IH]; intros s Hls; simpl.
  - rewrite app_nil_r. destruct s; reflexivity.
  - inversion Hls as [|? ? Hl Hls']; subst.
    destruct (String.eqb_spec l ".") as [->|_]; [congruence|].
    rewrite IH by assumption. simpl. rewrite <- app_assoc. reflexivity.
Qed.

(** Without a terminator the loop runs to the end of the stream. *)
Lemma collect_to_end s lines :
  Forall (fun l => l <> ".") lines ->
  collect s lines
  = (mkSession (from s) (rcpts s) (data s ++ lines) (step s) (secure s), [], false).
Proof.
  revert s. induction lines as [|l ls IH]; intros s Hls; simpl.
  - rewrite app_nil_r. destruct s; reflexivity.
  - inversion Hls as [|? ? Hl Hls']; subst.
    destruct (String.eqb_spec l ".") as [->|_]; [congruence|].
    rewrite IH by assumption. simpl. rewrite <- app_assoc. reflexivity.
Qed.

(** C2. A STARTTLS command on a session that is not yet secure, followed
    by a successful handshake, leaves the session with an empty sender, no
    recipients, no body lines, the initial step and the secure flag set,
    whatever it held before; the loop goes on reading from the encrypted
    stream. *)
Theorem starttls_upgrade_clears_session p s line rest fin :
  fst (parseCmd line) = "STARTTLS" ->
  secure s = false ->
  handshake p = None ->
  exists s',
    turn p s (mkScanner (line :: rest) fin)
    = ([Wrote "220 Ready to start TLS"; Handshake], Continue s' (tls_stream p))
    /\ upgradeToTLS p s = inr (tls_stream p, s')
    /\ from s' = "" /\ rcpts s' = [] /\ data s' = [] /\ step s' = ""
    /\ secure s' = true.
Proof.
  intros Hcmd Hsec Hhs. exists (mkSession "" [] [] "" true).
  rewrite turn_line, Hcmd. unfold dispatch, upgradeToTLS. simpl.
  rewrite Hsec, Hhs. simpl. repeat split; reflexivity.
Qed.

Lemma starttls_upgrade_clears_session_witness :
  exists s',
    turn (mkTLSPeer None (mkScanner ["EHLO x"] None))
         (mkSession "a@b" ["c@d"] ["stale"] "rcpt" false)
         (mkScanner ["starttls"; "EHLO again"] None)
    = ([Wrote "220 Ready to start TLS"; Handshake],
       Continue s' (mkScanner ["EHLO x"] None))
    /\ upgradeToTLS (mkTLSPeer None (mkScanner ["EHLO x"] None))
                    (mkSession "a@b" ["c@d"] ["stale"] "rcpt" false)
       = inr (mkScanner ["EHLO x"] None, s')
    /\ from s' = "" /\ rcpts s' = [] /\ data s' = [] /\ step s' = ""
    /\ secure s' = true.
Proof.
  apply (starttls_upgrade_clears_session
           (mkTLSPeer None (mkScanner ["EHLO x"] None))
           (mkSession "a@b" ["c@d"] ["stale"] "rcpt" false)
           "starttls" ["EHLO again"] None); reflexivity.
Defined.

(** C4. A recipient command while no sender is set, and a data-start
    command while the step is not the recipient step, are each answered by
    one 503 reply; the session (sender, recipients, body lines, step, secure
    flag) is what it was, and the loop goes on with the next line. *)
Theorem out_of_order_rejected p s line rest fin :
  (fst (parseCmd line) = "RCPT" /\ step s = "")
  \/ (fst (parseCmd line) = "DATA" /\ step s <> "rcpt") ->
  exists reply,
    turn p s (mkScanner (line :: rest) fin)
    = ([Wrote reply], Continue s (mkScanner rest fin))
    /\ HasPrefix reply "503 " = true.
Proof.
  intros [[Hcmd Hstep]|[Hcmd Hstep]]; rewrite turn_line, Hcmd; unfold dispatch; simpl.
  - rewrite Hstep. simpl. eexists; split; reflexivity.
  - destruct (String.eqb_spec (step s) "rcpt") as [E|_]; [contradiction|].
    simpl. eexists; split; reflexivity.
Qed.

Lemma out_of_order_rejected_witness :
  exists reply,
    turn (mkTLSPeer None (mkScanner [] None))
         (mkSession "a@b" [] [] "mail" false)
         (mkScanner ["DATA"; "QUIT"] None)
    = ([Wrote reply], Continue (mkSession "a@b" [] [] "mail" false) (mkScanner ["QUIT"] None))
    /\ HasPrefix reply "503 " = true.
Proof.
  apply (out_of_order_rejected
           (mkTLSPeer None (mkScanner [] None))
           (mkSession "a@b" [] [] "mail" false) "DATA" ["QUIT"] None).
  right. split; [reflexivity | discriminate].
Defined.

(** C5. On a session that is already secure, a STARTTLS command is
    answered by the reply 503 Already under TLS; no handshake is started,
    and the session and the stream are what they were. *)
Theorem starttls_when_secure_rejected p s line rest fin :
  fst (parseCmd line) = "STARTTLS" ->
  secure s = true ->
  turn p s (mkScanner (line :: rest) fin)
  = ([Wrote "503 Already under TLS"], Continue s (mkScanner rest fin))
  /\ ~ In Handshake (fst (turn p s (mkScanner (line :: rest) fin))).
Proof.
  intros Hcmd Hsec. rewrite turn_line, Hcmd. unfold dispatch. simpl.
  rewrite Hsec. split; [reflexivity|]. simpl. intros [H|[]]. discriminate.
Qed.

Lemma starttls_when_secure_rejected_witness :
  turn (mkTLSPeer None (mkScanner ["never read"] None))
       (mkSession "a@b" ["c@d"] [] "rcpt" true)
       (mkScanner ["STARTTLS"; "DATA"] None)
  = ([Wrote "503 Already under TLS"],
     Continue (mkSession "a@b" ["c@d"] [] "rcpt" true) (mkScanner ["DATA"] None))
  /\ ~ In Handshake
       (fst (turn (mkTLSPeer None (mkScanner ["never read"] None))
                  (mkSession "a@b" ["c@d"] [] "rcpt" true)
                  (mkScanner ["STARTTLS"; "DATA"] None))).
Proof.
  apply (starttls_when_secure_rejected
           (mkTLSPeer None (mkScanner ["never read"] None))
           (mkSession "a@b" ["c@d"] [] "rcpt" true)
           "STARTTLS" ["DATA"] None); reflexivity.
Defined.

End SessionEngine.

Section SessionRuns.

Implicit Types (s : session) (r : Scanner) (p : TLSPeer).

Lemma queues_with_recipients_app evs1 evs2 :
  queues_with_recipients evs1 -> queues_with_recipients evs2 ->
  queues_with_recipients (evs1 ++ evs2).
Proof.
  intros H1 H2 f rc b Hin. apply in_app_or in Hin as [Hin|Hin]; eauto.
Qed.

Ltac no_queue_event :=
  let H := fresh in
  intros ? ? ? H; simpl in H;
  repeat (destruct H as [H|H]; [discriminate H|]); destruct H.

Lemma dispatch_invariant p s r cmd arg :
  rcpt_step_has_recipient s ->
  queues_with_recipients (fst (dispatch p s r cmd arg))
  /\ match snd (dispatch p s r cmd arg) with
     | Continue s' _ => rcpt_step_has_recipient s'
     | Return => True
     end.
Proof.
  intros Hinv. unfold dispatch.
  destruct (String.eqb cmd "EHLO").
  { destruct (negb (secure s)); simpl; (split; [no_queue_event | exact Hinv]). }
  destruct (String.eqb cmd "HELO").
  { simpl. split; [no_queue_event | intros H; discriminate H]. }
  destruct (String.eqb cmd "STARTTLS").
  { destruct (secure s) eqn:Hsec; simpl; [split; [no_queue_event | exact Hinv]|].
    unfold upgradeToTLS. destruct (handshake p); simpl;
      (split; [no_queue_event|]); [exact I | intros H; discriminate H]. }
  destruct (String.eqb cmd "MAIL").
  { destruct (negb (HasPrefix (ToUpper arg) "FROM:")); simpl;
      (split; [no_queue_event|]); [exact Hinv | intros H; discriminate H]. }
  destruct (String.eqb cmd "RCPT").
  { destruct (String.eqb (step s) ""); [simpl; split; [no_queue_event | exact Hinv]|].
    destruct (negb (HasPrefix (ToUpper arg) "TO:")); simpl;
      (split; [no_queue_event|]); [exact Hinv|].
    intros _. destruct (rcpts s); discriminate. }
  destruct (String.eqb cmd "DATA").
  { destruct (String.eqb_spec (step s) "rcpt") as [Hstep|Hstep]; simpl;
      [|split; [no_queue_event | exact Hinv]].
    unfold handleDATA.
    pose proof (collect_fields s (pending r)) as Hf.
    destruct (collect s (pending r)) as [[s' rest] dot]. simpl in Hf.
    destruct Hf as (_ & Hrc & Hst & _).
    assert (Hinv' : rcpt_step_has_recipient s').
    { unfold rcpt_step_has_recipient. rewrite Hrc. intros _. apply Hinv, Hstep. }
    destruct (if dot then None else final r); simpl.
    - split; [no_queue_event | exact Hinv'].
    - split; [|intros H; discriminate H].
      intros f rc b Hin. simpl in Hin.
      destruct Hin as [H|[H|[H|[]]]]; try discriminate H.
      injection H as _ <- _. apply Hinv'. congruence. }
  destruct (String.eqb cmd "QUIT"); simpl; (split; [no_queue_event|]);
    [exact I | exact Hinv].
Qed.

Lemma turn_invariant p s r :
  rcpt_step_has_recipient s ->
  queues_with_recipients (fst (turn p s r))
  /\ match snd (turn p s r) with
     | Continue s' _ => rcpt_step_has_recipient s'
     | Return => True
     end.
Proof.
  intros Hinv. unfold turn. destruct (Scan r) as [[line r']|].
  - destruct (parseCmd line) as [cmd arg]. apply dispatch_invariant, Hinv.
  - simpl. split; [no_queue_event | exact I].
Qed.

Lemma serve_invariant fuel p s r evs :
  rcpt_step_has_recipient s ->
  serve fuel p s r = Some evs -> queues_with_recipients evs.
Proof.
  revert s r evs. induction fuel as [|fuel IH]; intros s r evs Hinv; simpl; [discriminate|].
  pose proof (turn_invariant p s r Hinv) as [Hq Hn].
  destruct (turn p s r) as [evs1 [s' r'|]]; simpl in *.
  - destruct (serve fuel p s' r') as [evs2|] eqn:Hrec; simpl; [|discriminate].
    intros [= <-]. apply queues_with_recipients_app; eauto.
  - intros [= <-]. exact Hq.
Qed.

Lemma collect_rest_length s lines :
  (List.length (snd (fst (collect s lines))) <= List.length lines)%nat.
Proof.
  revert s. induction lines as [|l rest IH]; intros s; simpl; [lia|].
  destruct (String.eqb l "."); simpl; [lia|].
  specialize (IH (mkSession (from s) (rcpts s) (data s ++ [l]) (step s) (secure s))). lia.
Qed.

Lemma dispatch_lines_left p s r cmd arg s' r' :
  snd (dispatch p s r cmd arg) = Continue s' r' ->
  (lines_left p s' r' <= lines_left p s r)%nat.
Proof.
  unfold dispatch, lines_left.
  destruct (String.eqb cmd "EHLO").
  { destruct (negb (secure s)); simpl; intros [= <- <-]; lia. }
  destruct (String.eqb cmd "HELO").
  { simpl; intros [= <- <-]; simpl; lia. }
  destruct (String.eqb cmd "STARTTLS").
  { destruct (secure s) eqn:Hsec; simpl.
    - intros [= <- <-]. rewrite Hsec. lia.
    - unfold upgradeToTLS. destruct (handshake p); simpl; [discriminate|].
      intros [= <- <-]. simpl. lia. }
  destruct (String.eqb cmd "MAIL").
  { destruct (negb (HasPrefix (ToUpper arg) "FROM:")); simpl; intros [= <- <-]; simpl; lia. }
  destruct (String.eqb cmd "RCPT").
  { destruct (String.eqb (step s) ""); [simpl; intros [= <- <-]; lia|].
    destruct (negb (HasPrefix (ToUpper arg) "TO:")); simpl; intros [= <- <-]; simpl; lia. }
  destruct (String.eqb cmd "DATA").
  { destruct (negb (String.eqb (step s) "rcpt")); simpl; [intros [= <- <-]; lia|].
    unfold handleDATA.
    pose proof (collect_fields s (pending r)) as Hf.
    pose proof (collect_rest_length s (pending r)) as Hl.
    destruct (collect s (pending r)) as [[s1 rest] dot]. simpl in Hf, Hl.
    destruct Hf as (_ & _ & _ & Hsec).
    destruct (if dot then None else final r); simpl; intros [= <- <-]; simpl;
      rewrite ?Hsec; lia. }
  destruct (String.eqb cmd "QUIT"); simpl; [discriminate|].
  intros [= <- <-]. lia.
Qed.

Lemma turn_lines_left p s r s' r' :
  snd (turn p s r) = Continue s' r' ->
  (lines_left p s' r' < lines_left p s r)%nat.
Proof.
  unfold turn, Scan. destruct r as [[|line rest] fin]; simpl; [discriminate|].
  destruct (parseCmd line) as [cmd arg]. intros H.
  apply dispatch_lines_left in H. unfold lines_left in *. simpl in *. lia.
Qed.

(** The command loop ends: with more turns than lines left it returns. *)
Lemma serve_total fuel p s r :
  (lines_left p s r < fuel)%nat -> is_Some (serve fuel p s r).
Proof.
  revert s r. induction fuel as [|fuel IH]; intros s r Hlt; [lia|]. simpl.
  pose proof (turn_lines_left p s r) as Hdec.
  destruct (turn p s r) as [evs [s' r'|]]; simpl in *; [|eauto].
  specialize (Hdec s' r' eq_refl).
  destruct (IH s' r') as [evs' ->]; [lia|]. simpl. eauto.
Qed.

(** C7. Every connection is served to its end, and every message the
    handler passes to [queueMessage] has at least one recipient: the data
    phase starts in the recipient step only, and the session is in that
    step only while its recipient list is not empty. *)
Theorem queued_messages_have_recipients r p :
  (exists evs,
     handleConn (S (lines_left p session0 r)) r p = Some evs)
  /\ (forall fuel evs,
        handleConn fuel r p = Some evs ->
        forall sender recipients body,
          In (QueueMessage sender recipients body) evs -> recipients <> []).
Proof.
  unfold handleConn. split.
  - destruct (serve_total (S (lines_left p session0 r)) p session0 r) as [evs ->]; [lia|].
    simpl. eauto.
  - intros fuel evs. destruct (serve fuel p session0 r) as [evs'|] eqn:Hs; simpl; [|discriminate].
    intros [= <-] f rc b [H|Hin]; [discriminate H|].
    assert (rcpt_step_has_recipient session0) as Hinv by (intros H; discriminate H).
    exact (serve_invariant _ _ _ _ _ Hinv Hs f rc b Hin).
Qed.

Lemma queued_messages_have_recipients_witness :
  handleConn 5 (mkScanner ["MAIL FROM:<a@b>"; "RCPT TO:<c@d>"; "DATA"; "hi"; "."] None)
               (mkTLSPeer None (mkScanner [] None))
  = Some [Wrote "220 smtpmini ESMTP ready"; Wrote "250 OK"; Wrote "250 OK";
          Wrote "354 End with <CRLF>.<CRLF>";
          QueueMessage "a@b" ["c@d"] ("hi" ++ CRLF); Wrote "250 Queued"]
  /\ ["c@d"] <> [].
Proof.
  split; [vm_compute; reflexivity|].
  apply (proj2 (queued_messages_have_recipients
                  (mkScanner ["MAIL FROM:<a@b>"; "RCPT TO:<c@d>"; "DATA"; "hi"; "."] None)
                  (mkTLSPeer None (mkScanner [] None)))
               5%nat _ eq_refl "a@b" ["c@d"] ("hi" ++ CRLF)).
  vm_compute. tauto.
Defined.

(** C10. When the stream ends (no read error) during the data phase
    before a terminator line, the lines read so far are joined with CRLF and
    queued, the reply is 250 Queued and the session is reset: the same
    events and the same session as when the terminator line is the last
    line received. *)
Theorem eof_completes_body p s line body_lines :
  fst (parseCmd line) = "DATA" ->
  step s = "rcpt" ->
  Forall (fun l => l <> ".") body_lines ->
  turn p s (mkScanner (line :: body_lines) None)
  = ([Wrote "354 End with <CRLF>.<CRLF>";
      QueueMessage (from s) (rcpts s) (Join (data s ++ body_lines) CRLF ++ CRLF);
      Wrote "250 Queued"],
     Continue (reset s) (mkScanner [] None))
  /\ turn p s (mkScanner (line :: body_lines ++ ["."]) None)
     = turn p s (mkScanner (line :: body_lines) None).
Proof.
  intros Hcmd Hstep Hls.
  assert (forall lines,
    lines = body_lines \/ lines = (body_lines ++ ["."])%list ->
    turn p s (mkScanner (line :: lines) None)
    = ([Wrote "354 End with <CRLF>.<CRLF>";
        QueueMessage (from s) (rcpts s) (Join (data s ++ body_lines) CRLF ++ CRLF);
        Wrote "250 Queued"],
       Continue (reset s) (mkScanner [] None))) as Hboth.
  { intros lines Hl. rewrite turn_line, Hcmd. unfold dispatch. simpl.
    rewrite Hstep. simpl. unfold handleDATA. simpl.
    destruct Hl as [-> | ->].
    - rewrite collect_to_end by assumption. reflexivity.
    - rewrite collect_until_dot by assumption. reflexivity. }
  split; [apply Hboth; auto|].
  rewrite !Hboth by auto. reflexivity.
Qed.

Lemma eof_completes_body_witness :
  turn (mkTLSPeer None (mkScanner [] None)) (mkSession "a@b" ["c@d"] [] "rcpt" false)
       (mkScanner ["DATA"; "Subject: hi"; ""; "body"] None)
  = ([Wrote "354 End with <CRLF>.<CRLF>";
      QueueMessage "a@b" ["c@d"] ("Subject: hi" ++ CRLF ++ CRLF ++ "body" ++ CRLF);
      Wrote "250 Queued"],
     Continue (mkSession "" [] [] "" false) (mkScanner [] None))
  /\ turn (mkTLSPeer None (mkScanner [] None)) (mkSession "a@b" ["c@d"] [] "rcpt" false)
          (mkScanner ["DATA"; "Subject: hi"; ""; "body"; "."] None)
     = turn (mkTLSPeer None (mkScanner [] None)) (mkSession "a@b" ["c@d"] [] "rcpt" false)
            (mkScanner ["DATA"; "Subject: hi"; ""; "body"] None).
Proof.
  apply (eof_completes_body (mkTLSPeer None (mkScanner [] None))
           (mkSession "a@b" ["c@d"] [] "rcpt" false) "DATA" ["Subject: hi"; ""; "body"]).
  - reflexivity.
  - reflexivity.
  - repeat constructor; discriminate.
Defined.

(** A read error in the data phase, by contrast, queues nothing. *)
Lemma read_error_queues_nothing p s line body_lines e :
  fst (parseCmd line) = "DATA" ->
  step s = "rcpt" ->
  Forall (fun l => l <> ".") body_lines ->
  fst (turn p s (mkScanner (line :: body_lines) (Some e)))
  = [Wrote "354 End with <CRLF>.<CRLF>"; Wrote "500 Error reading DATA"].
Proof.
  intros Hcmd Hstep Hls. rewrite turn_line, Hcmd. unfold dispatch. simpl.
  rewrite Hstep. simpl. unfold handleDATA. simpl.
  rewrite collect_to_end by assumption. reflexivity.
Qed.

End SessionRuns.

(** ** Strings *)

Section StringFacts.





Lemma LastIndexByte_range s c : -1 <= LastIndexByte s c < len s.
Proof.
  unfold len. induction s as [|b s IH]; simpl String.length; simpl LastIndexByte; [lia|].
  destruct (Z.leb_spec 0 (LastIndexByte s c)); [lia|].
  destruct (ascii_dec b c); lia.
Qed.

End StringFacts.

(** ** The delivery client *)

Section DeliveryClient.

Variable ReadResponse : Z -> Dlg unit.




(** The earlier, inline exchange stops after the first line: on the
    greeting reply of smtpmini itself it misses the offer and leaves two
    lines of the reply unread, where [ehlo] reads them all. *)
Example ehlo_first_line_stops_early :
  let tp := mkConn ["250-smtpmini"; "250-STARTTLS"; "250 HELP"] "EOF" [] None in
  fst (ehlo_first_line tp) = inr false
  /\ rx (snd (ehlo_first_line tp)) = ["250-STARTTLS"; "250 HELP"]
  /\ fst (ehlo tp) = (true, None)
  /\ rx (snd (ehlo tp)) = [].
Proof. vm_compute. repeat split; reflexivity. Qed.

(** What [deliver] does with the report: it decides between the upgrade
    and the plain transfer. *)
Lemma dialogue_after_ehlo net host m tp tp1 supportsTLS tp2 :
  ReadResponse 220 tp = (inr tt, tp1) ->
  ehlo tp1 = ((supportsTLS, None), tp2) ->
  dialogue ReadResponse net host m tp
  = if supportsTLS then upgrade ReadResponse net host m tp2
    else transfer ReadResponse m tp2.
Proof.
  intros Hread Hehlo. unfold dialogue, bind, ehlo_step.
  rewrite Hread, Hehlo. destruct supportsTLS; reflexivity.
Qed.

(** C9. [deliver] indexes the first recipient without a guard.  With a
    non-empty recipient list the index and the slice after the last at-sign
    are in range and the call returns; with an empty list there is no such
    element and the call panics. *)
Theorem first_recipient_indexing net m :
  (Rcpts m <> [] ->
   exists r0 err,
     Rcpts m !! 0%nat = Some r0
     /\ 0 <= LastIndexByte r0 "@"%char + 1 <= len r0
     /\ mx_domain m = Some (drop_bytes (Z.to_nat (LastIndexByte r0 "@"%char + 1)) r0)
     /\ deliver ReadResponse net m = Returned err)
  /\ (Rcpts m = [] ->
      Rcpts m !! 0%nat = None
      /\ mx_domain m = None
      /\ deliver ReadResponse net m = Panicked).
Proof.
  split.
  - intros Hne. destruct (Rcpts m) as [|r0 rest] eqn:Hr; [contradiction|].
    assert (mx_domain m = Some (drop_bytes (Z.to_nat (LastIndexByte r0 "@"%char + 1)) r0)) as Hd.
    { unfold mx_domain. rewrite Hr. reflexivity. }
    assert (exists err, deliver ReadResponse net m = Returned err) as [err Herr].
    { unfold deliver. rewrite Hd.
      destruct (String.eqb _ ""); [eauto|].
      destruct (DialTimeout net _); [eauto|].
      destruct (dialogue ReadResponse net _ m _) as [[e|u] tp']; eauto. }
    exists r0, err. pose proof (LastIndexByte_range r0 "@"%char).
    repeat split; try assumption; lia.
  - intros Hr. unfold deliver, mx_domain. rewrite Hr. repeat split; reflexivity.
Qed.

End DeliveryClient.

(** ** The slices of the command arguments *)

Section ArgumentSlices.

Lemma ToUpper_length s : String.length (ToUpper s) = String.length s.
Proof. induction s as [|c s IH]; simpl; [reflexivity | rewrite IH; reflexivity]. Qed.

Lemma HasPrefix_length s prefix :
  HasPrefix s prefix = true -> (String.length prefix <= String.length s)%nat.
Proof.
  revert s. induction prefix as [|p prefix IH]; intros s H; simpl in *; [lia|].
  destruct s as [|c s]; [discriminate|].
  destruct (ascii_dec c p); [|discriminate]. simpl. specialize (IH s H). lia.
Qed.

(** X3. [arg[5:]] in the MAIL branch and [arg[3:]] in the RCPT branch are
    taken only of arguments that long: the slices do not panic. *)
Lemma argument_slices_in_range arg :
  (HasPrefix (ToUpper arg) "FROM:" = true -> (5 <= String.length arg)%nat)
  /\ (HasPrefix (ToUpper arg) "TO:" = true -> (3 <= String.length arg)%nat).
Proof.
  split; intros H; apply HasPrefix_length in H; rewrite ToUpper_length in H; exact H.
Qed.

End ArgumentSlices.

(** ** Transparency of the message content *)

Section Transparency.

Lemma lf_dot_prefix c s :
  HasPrefix (String c s) (String LF ".")
  = bool_decide (c = LF) && HasPrefix s ".".
Proof.
  cbn [HasPrefix]. destruct (ascii_dec c LF) as [->|Hc].
  - rewrite bool_decide_eq_true_2 by reflexivity. reflexivity.
  - rewrite bool_decide_eq_false_2 by assumption. reflexivity.
Qed.

Lemma replace_from_skip k c s old new :
  replace_from (S k) (String c s) old new = replace_from k s old new.
Proof. reflexivity. Qed.

Lemma replace_from_here c s old new :
  replace_from O (String c s) old new
  = if HasPrefix (String c s) old
    then new ++ replace_from (String.length old - 1) s old new
    else String c (replace_from O s old new).
Proof. reflexivity. Qed.




(** A period at the very start of the content follows no line feed. *)
Example leading_period :
  dotted (".a" ++ CRLF ++ ".b" ++ CRLF) = ".a" ++ CRLF ++ "..b" ++ CRLF.
Proof. reflexivity. Qed.




End Transparency.

(** ** The spool queue *)

Section FileNames.

Lemma length_append s t :
  String.length (s ++ t) = (String.length s + String.length t)%nat.
Proof. induction s as [|c s IH]; simpl; [reflexivity | rewrite IH; reflexivity]. Qed.










End FileNames.

(** ** The scheduler *)

Section DeliverTotal.
Variable ReadResponse : Z -> Dlg unit.

End DeliverTotal.

Section SchedulerFacts.

Variable writable : string -> bool.
Variable ReadResponse : Z -> Dlg unit.
Variable net : Message -> Net.

Lemma wrap64_small z : - 2^63 <= z < 2^63 -> wrap64 z = z.
Proof.
  intros H. unfold wrap64. rewrite Z.mod_small; lia.
Qed.

Lemma backoff_exact attempts :
  Z.abs attempts <= max_backoff_attempts ->
  backoff attempts = attempts * (15 * Minute).
Proof.
  unfold max_backoff_attempts, backoff, Minute. intros H.
  rewrite (wrap64_small (attempts * 15)) by lia.
  rewrite wrap64_small by lia. lia.
Qed.







End SchedulerFacts.

Section SchedulerClaims.

Variable writable : string -> bool.
Variable ReadResponse : Z -> Dlg unit.
Variable net : Message -> Net.


End SchedulerClaims.







(** ** Queueing *)

Section QueueClaims.

Variable writable : string -> bool.


End QueueClaims.





(** The record of the example above, computed. *)
Example enqueue_ex :
  fst (queueMessage (fun _ => true) (clock_from 1700000000000000000) ∅
                    "a@b" ["c@d"] ("Subject: hi" ++ CRLF ++ CRLF ++ "body" ++ CRLF))
    !! "1700000000000000000-a_b.json"
  = Some (mkMessage "1700000000000000000-a_b.json" "a@b" ["c@d"]
                    ("Subject: hi" ++ CRLF ++ CRLF ++ "body" ++ CRLF)
                    0 "" 1700000000000000001).
Proof. vm_compute. reflexivity. Qed.

(** Two calls that read the same timestamp for the same sender share a
    file name: the second record replaces the first. *)
Example same_timestamp_same_name :
  file_name 1700000000000000000 "a@b" = file_name 1700000000000000000 "a_b".
Proof. vm_compute. reflexivity. Qed.

(** ** Running the delivery client *)

Lemma first_recipient_indexing_witness :
  (exists r0 err,
     Rcpts to_d !! 0%nat = Some r0
     /\ 0 <= LastIndexByte r0 "@"%char + 1 <= len r0
     /\ mx_domain to_d = Some (drop_bytes (Z.to_nat (LastIndexByte r0 "@"%char + 1)) r0)
     /\ deliver line_reply net_d to_d = Returned err)
  /\ (Rcpts to_nobody !! 0%nat = None
      /\ mx_domain to_nobody = None
      /\ deliver line_reply net_d to_nobody = Panicked).
Proof.
  split.
  - apply (proj1 (first_recipient_indexing line_reply net_d to_d)). discriminate.
  - apply (proj2 (first_recipient_indexing line_reply net_d to_nobody)). reflexivity.
Defined.

Example deliver_to_d : deliver line_reply net_d to_d = Returned None.
Proof. vm_compute. reflexivity. Qed.

Example deliver_without_recipients :
  deliver line_reply net_d to_nobody = Panicked.
Proof. reflexivity. Qed.

(** What [deliver] writes to the peer for a content with a line that
    begins with a period. *)
Example transfer_ex :
  tx (snd (dialogue line_reply net_d "mx.d"
             (mkMessage "1-a_b.json" "a@b" ["c@d"] ("a" ++ CRLF ++ ".b" ++ CRLF) 0 "" 0)
             accepting_peer))
  = ["EHLO smtpmini.local"; "MAIL FROM:<a@b>"; "RCPT TO:<c@d>"; "DATA";
     "a" ++ CRLF ++ "..b" ++ CRLF ++ CRLF ++ "."; "QUIT"].
Proof. vm_compute. reflexivity. Qed.


(** * Further properties *)

Section Parsing.

Lemma Index_first_byte verb c rest :
  lacks c verb ->
  Index (verb ++ String c rest) (String c "") = Some (String.length verb).
Proof.
  induction verb as [|b verb IH]; intros Hv; simpl.
  - destruct (ascii_dec c c); [reflexivity | contradiction].
  - destruct Hv as [Hb Hv]. destruct (ascii_dec b c); [contradiction|].
    rewrite (IH Hv). reflexivity.
Qed.

Lemma Index_absent verb c :
  lacks c verb -> Index verb (String c "") = None.
Proof.
  induction verb as [|b verb IH]; intros Hv; simpl; [reflexivity|].
  destruct Hv as [Hb Hv]. destruct (ascii_dec b c); [contradiction|].
  rewrite (IH Hv). reflexivity.
Qed.

Lemma take_bytes_app s t : take_bytes (String.length s) (s ++ t) = s.
Proof. induction s as [|c s IH]; simpl; [destruct t; reflexivity | rewrite IH; reflexivity]. Qed.

Lemma drop_bytes_app s t : drop_bytes (String.length s) (s ++ t) = t.
Proof. induction s as [|c s IH]; simpl; [reflexivity | exact IH]. Qed.

Lemma drop_bytes_app_S s c t :
  drop_bytes (String.length s + 1) (s ++ String c t) = t.
Proof. induction s as [|b s IH]; simpl; [reflexivity | exact IH]. Qed.

Lemma ToUpper_idempotent s : ToUpper (ToUpper s) = ToUpper s.
Proof.
  induction s as [|c s IH]; simpl; [reflexivity|]. rewrite IH. f_equal.
  unfold upper_byte.
  destruct ((97 <=? nat_of_ascii c)%nat && (nat_of_ascii c <=? 122)%nat) eqn:E.
  - apply andb_true_iff in E as [E1 E2].
    apply Nat.leb_le in E1, E2.
    rewrite nat_ascii_embedding by lia.
    destruct (Nat.leb_spec 97 (nat_of_ascii c - 32)); [lia|]. reflexivity.
  - rewrite E. reflexivity.
Qed.

(** parseCmd splits at the first space. *)
(** X1. [parseCmd] cuts a line at its first space: the text before it,
    in upper case, is the command and the text after it, spaces and all, is
    the argument; a line without a space is a command with an empty
    argument; and the case of the verb does not matter. *)
Theorem parseCmd_splits_at_first_space verb arg :
  lacks " "%char verb ->
  parseCmd (verb ++ " " ++ arg) = (ToUpper verb, arg)
  /\ parseCmd verb = (ToUpper verb, "")
  /\ fst (parseCmd (ToUpper verb ++ " " ++ arg)) = fst (parseCmd (verb ++ " " ++ arg)).
Proof.
  intros Hv.
  assert (forall v a, lacks " "%char v -> parseCmd (v ++ " " ++ a) = (ToUpper v, a)) as Hsp.
  { intros v a Hl. unfold parseCmd, SplitN2.
    change (v ++ " " ++ a) with (v ++ String " " a).
    rewrite (Index_first_byte v " "%char a Hl). simpl String.length.
    rewrite take_bytes_app, drop_bytes_app_S. reflexivity. }
  split; [apply Hsp, Hv|]. split.
  - unfold parseCmd, SplitN2. rewrite (Index_absent verb " "%char Hv). reflexivity.
  - rewrite !Hsp; [simpl; apply ToUpper_idempotent | exact Hv |].
    clear -Hv. induction verb as [|b verb IH]; simpl; [exact I|].
    destruct Hv as [Hb Hv]. split; [|apply IH, Hv].
    unfold upper_byte.
    destruct ((97 <=? nat_of_ascii b)%nat && (nat_of_ascii b <=? 122)%nat) eqn:E; [|exact Hb].
    apply andb_true_iff in E as [E1 E2]. apply Nat.leb_le in E1, E2.
    intros Heq. apply (f_equal nat_of_ascii) in Heq.
    rewrite nat_ascii_embedding in Heq by lia.
    change (nat_of_ascii " "%char) with 32%nat in Heq. lia.
Qed.

End Parsing.

Section Addresses.

Lemma append_cons c (s t : string) : String c s ++ t = String c (s ++ t).
Proof. reflexivity. Qed.

Lemma append_nil (t : string) : "" ++ t = t.
Proof. reflexivity. Qed.

Lemma append_assoc (a b c : string) : (a ++ b) ++ c = a ++ b ++ c.
Proof.
  induction a as [|x a IH]; [reflexivity|]. rewrite !append_cons. f_equal. exact IH.
Qed.

Lemma trim_left_space_app ws t :
  all_space ws -> trim_left_space (ws ++ t) = trim_left_space t.
Proof.
  induction ws as [|b ws IH]; intros Hws; [reflexivity|].
  rewrite append_cons. simpl. destruct Hws as [Hb Hws]. rewrite Hb. apply IH, Hws.
Qed.

Lemma trim_right_space_all ws : all_space ws -> trim_right_space ws = "".
Proof.
  induction ws as [|b ws IH]; intros Hws; simpl; [reflexivity|].
  destruct Hws as [Hb Hws]. rewrite (IH Hws), Hb. reflexivity.
Qed.

Lemma trim_right_space_app t ws :
  all_space ws -> trim_right_space (t ++ ws) = trim_right_space t.
Proof.
  intros Hws. induction t as [|b t IH].
  - apply trim_right_space_all, Hws.
  - rewrite append_cons. simpl. rewrite IH. reflexivity.
Qed.

Lemma trim_right_space_last t c :
  is_space_byte c = false -> trim_right_space (t ++ String c "") = t ++ String c "".
Proof.
  intros Hc. induction t as [|b t IH].
  - rewrite append_nil. simpl. rewrite Hc. reflexivity.
  - rewrite append_cons. simpl. rewrite IH.
    destruct (t ++ String c "") eqn:E; [|reflexivity].
    destruct t; discriminate E.
Qed.

Lemma HasSuffix_last t c : HasSuffix (t ++ String c "") (String c "") = true.
Proof.
  unfold HasSuffix. rewrite length_append. simpl String.length.
  replace (String.length t + 1 - 1)%nat with (String.length t) by lia.
  rewrite drop_bytes_app. rewrite bool_decide_eq_true_2 by reflexivity.
  rewrite andb_true_r. apply Nat.leb_le. lia.
Qed.

Lemma stripAddr_padded ws a ws' :
  all_space ws -> all_space ws' ->
  stripAddr (ws ++ "<" ++ a ++ ">" ++ ws') = a.
Proof.
  intros Hws Hws'. unfold stripAddr, TrimSpace.
  rewrite trim_left_space_app by assumption.
  change (trim_left_space ("<" ++ a ++ ">" ++ ws')) with ("<" ++ a ++ ">" ++ ws').
  replace ("<" ++ a ++ ">" ++ ws') with (("<" ++ a ++ ">") ++ ws')
    by (rewrite !append_assoc; reflexivity).
  rewrite trim_right_space_app by assumption.
  replace ("<" ++ a ++ ">") with (("<" ++ a) ++ ">") by reflexivity.
  rewrite trim_right_space_last by reflexivity.
  change (TrimPrefix (("<" ++ a) ++ ">") "<") with (a ++ ">").
  unfold TrimSuffix. rewrite HasSuffix_last, length_append. simpl String.length.
  replace (String.length a + 1 - 1)%nat with (String.length a) by lia.
  apply take_bytes_app.
Qed.

(** X2. [stripAddr] takes an address out of one pair of angle brackets,
    whatever white space surrounds the brackets and whatever the address
    holds. *)
Theorem stripAddr_bracketed ws a ws' :
  all_space ws -> all_space ws' ->
  stripAddr (ws ++ "<" ++ a ++ ">" ++ ws') = a.
Proof. apply stripAddr_padded. Qed.

End Addresses.

Section Transactions.

Implicit Types (s : session) (r : Scanner) (p : TLSPeer).

Lemma parseCmd_space verb arg :
  lacks " "%char verb -> parseCmd (verb ++ " " ++ arg) = (ToUpper verb, arg).
Proof.
  intros Hl. unfold parseCmd, SplitN2.
  change (verb ++ " " ++ arg) with (verb ++ String " " arg).
  rewrite (Index_first_byte verb " "%char arg Hl). simpl String.length.
  rewrite take_bytes_app, drop_bytes_app_S. reflexivity.
Qed.

Lemma serve_step fuel p s r evs s' r' :
  turn p s r = (evs, Continue s' r') ->
  serve (S fuel) p s r = (evs ++.) <$> serve fuel p s' r'.
Proof. intros H. simpl. rewrite H. reflexivity. Qed.

Lemma fmap_app_app (a b : list event) (x : option (list event)) :
  (a ++.) <$> ((b ++.) <$> x) = ((a ++ b) ++.) <$> x.
Proof. destruct x as [l|]; simpl; [rewrite app_assoc|]; reflexivity. Qed.

Lemma append_empty_r (a : string) : a ++ "" = a.
Proof. induction a as [|x a IH]; [reflexivity|]. rewrite append_cons. f_equal. exact IH. Qed.

Lemma turn_mail p s sender rest fin :
  turn p s (mkScanner (("MAIL FROM:<" ++ sender ++ ">") :: rest) fin)
  = ([Wrote "250 OK"],
     Continue (mkSession sender [] [] "mail" (secure s)) (mkScanner rest fin)).
Proof.
  rewrite turn_line.
  change ("MAIL FROM:<" ++ sender ++ ">") with ("MAIL" ++ " " ++ "FROM:<" ++ sender ++ ">").
  rewrite parseCmd_space by (simpl; repeat split; discriminate).
  cbn [fst snd]. unfold dispatch.
  change (ToUpper "MAIL") with "MAIL". cbn [String.eqb Ascii.eqb Bool.eqb].
  change (HasPrefix (ToUpper ("FROM:<" ++ sender ++ ">")) "FROM:") with true.
  cbn [negb]. change (drop_bytes 5 ("FROM:<" ++ sender ++ ">")) with ("<" ++ sender ++ ">").
  assert (stripAddr ("<" ++ sender ++ ">") = sender) as ->; [|reflexivity].
  pose proof (stripAddr_padded "" sender "" I I) as H.
  rewrite append_empty_r in H. exact H.
Qed.

Lemma stripAddr_brackets a : stripAddr ("<" ++ a ++ ">") = a.
Proof.
  pose proof (stripAddr_padded "" a "" I I) as H.
  rewrite append_empty_r in H. exact H.
Qed.

Lemma turn_rcpt p s rcpt rest fin :
  step s <> "" ->
  turn p s (mkScanner (("RCPT TO:<" ++ rcpt ++ ">") :: rest) fin)
  = ([Wrote "250 OK"],
     Continue (mkSession (from s) (rcpts s ++ [rcpt]) (data s) "rcpt" (secure s))
              (mkScanner rest fin)).
Proof.
  intros Hstep. rewrite turn_line.
  change ("RCPT TO:<" ++ rcpt ++ ">") with ("RCPT" ++ " " ++ "TO:<" ++ rcpt ++ ">").
  rewrite parseCmd_space by (simpl; repeat split; discriminate).
  cbn [fst snd]. unfold dispatch.
  change (ToUpper "RCPT") with "RCPT". cbn [String.eqb Ascii.eqb Bool.eqb].
  destruct (String.eqb_spec (step s) "") as [E|_]; [contradiction|].
  change (HasPrefix (ToUpper ("TO:<" ++ rcpt ++ ">")) "TO:") with true.
  cbn [negb]. change (drop_bytes 3 ("TO:<" ++ rcpt ++ ">")) with ("<" ++ rcpt ++ ">").
  rewrite stripAddr_brackets. reflexivity.
Qed.

Lemma serve_rcpts fuel p s recipients rest fin :
  step s <> "" ->
  serve (List.length recipients + fuel) p s (mkScanner (rcpt_lines recipients ++ rest) fin)
  = (repeat (Wrote "250 OK") (List.length recipients) ++.)
    <$> serve fuel p
          (mkSession (from s) (rcpts s ++ recipients) (data s)
                     (match recipients with [] => step s | _ => "rcpt" end) (secure s))
          (mkScanner rest fin).
Proof.
  revert s. induction recipients as [|rcpt rs IH]; intros s Hstep.
  - cbn [List.length rcpt_lines fmap list_fmap app repeat Nat.add].
    rewrite app_nil_r. destruct s. cbn.
    destruct (serve fuel p _ _); reflexivity.
  - cbn [List.length rcpt_lines fmap list_fmap app repeat Nat.add].
    rewrite (serve_step _ _ _ _ _ _ _ (turn_rcpt p s rcpt _ fin Hstep)).
    fold (rcpt_lines rs). rewrite IH by discriminate.
    rewrite fmap_app_app. cbn [from rcpts data step secure].
    rewrite <- app_assoc. cbn [app].
    destruct rs; reflexivity.
Qed.

Lemma turn_data p s body rest fin :
  step s = "rcpt" ->
  Forall (fun l => l <> ".") body ->
  turn p s (mkScanner ("DATA" :: body ++ "." :: rest) fin)
  = ([Wrote "354 End with <CRLF>.<CRLF>";
      QueueMessage (from s) (rcpts s) (Join (data s ++ body) CRLF ++ CRLF);
      Wrote "250 Queued"],
     Continue (reset s) (mkScanner rest fin)).
Proof.
  intros Hstep Hbody. rewrite turn_line.
  change (parseCmd "DATA") with ("DATA", ""). cbn [fst snd]. unfold dispatch.
  cbn [String.eqb Ascii.eqb Bool.eqb]. rewrite Hstep. cbn [String.eqb Ascii.eqb Bool.eqb negb].
  unfold handleDATA. cbn [pending final].
  rewrite collect_until_dot by assumption. reflexivity.
Qed.

Lemma serve_transaction fuel p s sender recipients body rest fin :
  recipients <> [] ->
  Forall (fun l => l <> ".") body ->
  serve (S (S (List.length recipients + fuel))) p s
        (mkScanner (transaction sender recipients body ++ rest) fin)
  = (([Wrote "250 OK"] ++ repeat (Wrote "250 OK") (List.length recipients)
      ++ [Wrote "354 End with <CRLF>.<CRLF>";
          QueueMessage sender recipients (Join body CRLF ++ CRLF);
          Wrote "250 Queued"]) ++.)
    <$> serve fuel p (reset s) (mkScanner rest fin).
Proof.
  intros Hne Hbody. unfold transaction. cbn [app].
  rewrite (serve_step _ _ _ _ _ _ _ (turn_mail p s sender _ fin)).
  rewrite <- app_assoc.
  replace (S (List.length recipients + fuel)) with (List.length recipients + S fuel)%nat by lia.
  rewrite serve_rcpts by discriminate. cbn [from rcpts data step secure app].
  destruct recipients as [|r0 rs]; [contradiction|].
  replace ((body ++ ["."]) ++ rest)%list with (body ++ "." :: rest)%list
    by (rewrite <- app_assoc; reflexivity).
  rewrite (serve_step _ _ _ _ _ _ _
             (turn_data p (mkSession sender (r0 :: rs) [] "rcpt" (secure s)) body rest fin
                        eq_refl Hbody)).
  cbn [from rcpts data app reset secure].
  destruct (serve fuel p _ _) as [evs|]; cbn; [|reflexivity].
  rewrite <- !app_assoc. reflexivity.
Qed.


End Transactions.

Section Replies.

Implicit Types (s : session) (r : Scanner) (p : TLSPeer).

Ltac by_command cmd :=
  unfold dispatch;
  destruct (String.eqb cmd "EHLO"); [|
  destruct (String.eqb cmd "HELO"); [|
  destruct (String.eqb cmd "STARTTLS"); [|
  destruct (String.eqb cmd "MAIL"); [|
  destruct (String.eqb cmd "RCPT"); [|
  destruct (String.eqb cmd "DATA"); [|
  destruct (String.eqb cmd "QUIT")]]]]]].

Lemma dispatch_replies p s r cmd arg :
  Forall (fun l => In l reply_texts) (replies (fst (dispatch p s r cmd arg))).
Proof.
  assert (forall l, In l reply_texts -> In l reply_texts) as Hin by auto.
  by_command cmd.
  - destruct (negb (secure s)); cbn [fst replies flat_map app];
      repeat constructor; vm_compute; tauto.
  - cbn [fst replies flat_map app]; repeat constructor; vm_compute; tauto.
  - destruct (secure s); [cbn [fst replies flat_map app]; repeat constructor; vm_compute; tauto|].
    destruct (upgradeToTLS p s) as [e|[r' s']]; cbn [fst replies flat_map app];
      repeat constructor; vm_compute; tauto.
  - destruct (negb (HasPrefix (ToUpper arg) "FROM:")); cbn [fst replies flat_map app];
      repeat constructor; vm_compute; tauto.
  - destruct (String.eqb (step s) "");
      [cbn [fst replies flat_map app]; repeat constructor; vm_compute; tauto|].
    destruct (negb (HasPrefix (ToUpper arg) "TO:")); cbn [fst replies flat_map app];
      repeat constructor; vm_compute; tauto.
  - destruct (negb (String.eqb (step s) "rcpt"));
      [cbn [fst replies flat_map app]; repeat constructor; vm_compute; tauto|].
    destruct (handleDATA s r) as [[[body [e|]] s'] r']; cbn [fst replies flat_map app];
      repeat constructor; vm_compute; tauto.
  - cbn [fst replies flat_map app]; repeat constructor; vm_compute; tauto.
  - cbn [fst replies flat_map app]; repeat constructor; vm_compute; tauto.
Qed.

Lemma replies_app evs1 evs2 :
  replies (evs1 ++ evs2) = (replies evs1 ++ replies evs2)%list.
Proof. unfold replies. apply flat_map_app. Qed.

Lemma serve_replies fuel p s r evs :
  serve fuel p s r = Some evs -> Forall (fun l => In l reply_texts) (replies evs).
Proof.
  revert s r evs. induction fuel as [|fuel IH]; intros s r evs; simpl; [discriminate|].
  assert (Forall (fun l => In l reply_texts) (replies (fst (turn p s r)))) as Ht.
  { unfold turn. destruct (Scan r) as [[line r']|]; [|constructor].
    destruct (parseCmd line). apply dispatch_replies. }
  destruct (turn p s r) as [evs1 [s' r'|]]; cbn [fst] in Ht.
  - destruct (serve fuel p s' r') as [evs2|] eqn:E; simpl; [|discriminate].
    intros [= <-]. rewrite replies_app. apply Forall_app. split; [exact Ht | eauto].
  - intros [= <-]. exact Ht.
Qed.

Lemma dropCR_last x : dropCR (x ++ String CR "") = x.
Proof.
  induction x as [|b x IH]; [reflexivity|].
  rewrite append_cons. simpl. rewrite IH.
  destruct (x ++ String CR "") eqn:E; [destruct x; discriminate E | reflexivity].
Qed.

Lemma ScanLines_line acc l rest :
  lacks LF l ->
  ScanLines acc (l ++ CRLF ++ rest) = (acc ++ l) :: ScanLines "" rest.
Proof.
  revert acc. induction l as [|c l IH]; intros acc Hl.
  - rewrite append_nil, append_empty_r. simpl.
    rewrite dropCR_last. reflexivity.
  - destruct Hl as [Hc Hl]. rewrite append_cons. simpl.
    destruct (ascii_dec c LF); [contradiction|].
    rewrite IH by assumption. rewrite append_assoc. reflexivity.
Qed.

Lemma ScanLines_wire lines :
  Forall (lacks LF) lines -> ScanLines "" (wire lines) = lines.
Proof.
  induction 1 as [|l lines Hl _ IH]; [reflexivity|].
  cbn [wire foldr]. rewrite ScanLines_line by assumption. fold (wire lines).
  rewrite IH. reflexivity.
Qed.

(** X9. Every line a connection handler writes is one of the fixed
    reply texts of [handleConn] (nothing the client sent is echoed), and the
    bytes [writeLine] puts on the wire for them split back into exactly
    those lines. *)
Theorem replies_fixed_and_framed fuel r p evs :
  handleConn fuel r p = Some evs ->
  Forall (fun l => In l reply_texts) (replies evs)
  /\ ScanLines "" (wire (replies evs)) = replies evs.
Proof.
  unfold handleConn. destruct (serve fuel p session0 r) as [evs'|] eqn:E; simpl; [|discriminate].
  intros [= <-].
  assert (Forall (fun l => In l reply_texts) (replies (Wrote "220 smtpmini ESMTP ready" :: evs'))) as H.
  { cbn [replies flat_map app]. constructor; [vm_compute; tauto|].
    apply (serve_replies _ _ _ _ _ E). }
  split; [exact H|]. apply ScanLines_wire.
  eapply Forall_impl; [exact H|]. intros l Hl.
  unfold reply_texts in Hl. cbn [In] in Hl.
  repeat (destruct Hl as [<-|Hl]; [simpl; repeat split; discriminate|]). destruct Hl.
Qed.

End Replies.

Section Upgrades.

Implicit Types (s : session) (r : Scanner) (p : TLSPeer).

Ltac by_command cmd :=
  unfold dispatch;
  destruct (String.eqb cmd "EHLO"); [|
  destruct (String.eqb cmd "HELO"); [|
  destruct (String.eqb cmd "STARTTLS"); [|
  destruct (String.eqb cmd "MAIL"); [|
  destruct (String.eqb cmd "RCPT"); [|
  destruct (String.eqb cmd "DATA"); [|
  destruct (String.eqb cmd "QUIT")]]]]]].

Ltac not_among :=
  let H := fresh in
  intros H; cbn [In] in H;
  repeat (destruct H as [H|H]; [discriminate H|]); exact H.


(** A turn either is the upgrade, or starts no handshake. *)
Lemma dispatch_handshake p s r cmd arg :
  (fst (dispatch p s r cmd arg) = [Wrote "220 Ready to start TLS"; Handshake]
   /\ stays_secure (snd (dispatch p s r cmd arg)))
  \/ (~ In Handshake (fst (dispatch p s r cmd arg))
      /\ (secure s = true ->
          ~ In (Wrote "250-STARTTLS") (fst (dispatch p s r cmd arg))
          /\ stays_secure (snd (dispatch p s r cmd arg)))).
Proof.
  by_command cmd.
  - right. destruct (secure s) eqn:Hsec; cbn [negb fst snd];
      (split; [not_among|]); [|discriminate].
    intros _. split; [not_among | exact Hsec].
  - right. cbn [fst snd]. split; [not_among|]. intros Hsec. split; [not_among | exact Hsec].
  - destruct (secure s) eqn:Hsec.
    + right. cbn [fst snd]. split; [not_among|]. intros _. split; [not_among | exact Hsec].
    + left. unfold upgradeToTLS. destruct (handshake p); cbn [fst snd];
        split; reflexivity || exact I.
  - right. destruct (negb (HasPrefix (ToUpper arg) "FROM:")); cbn [fst snd];
      (split; [not_among|]); intros Hsec; (split; [not_among | exact Hsec]).
  - right. destruct (String.eqb (step s) "");
      [cbn [fst snd]; split; [not_among|]; intros Hsec; split; [not_among | exact Hsec]|].
    destruct (negb (HasPrefix (ToUpper arg) "TO:")); cbn [fst snd];
      (split; [not_among|]); intros Hsec; (split; [not_among | exact Hsec]).
  - right. destruct (negb (String.eqb (step s) "rcpt"));
      [cbn [fst snd]; split; [not_among|]; intros Hsec; split; [not_among | exact Hsec]|].
    unfold handleDATA.
    pose proof (collect_fields s (pending r)) as Hf.
    destruct (collect s (pending r)) as [[s1 rest] dot]. cbn [fst] in Hf.
    destruct Hf as (_ & _ & _ & Hs1).
    destruct (if dot then None else final r); cbn [fst snd];
      (split; [not_among|]); intros Hsec; (split; [not_among|]);
      cbn [stays_secure reset secure]; congruence.
  - right. cbn [fst snd]. split; [not_among|]. intros _. split; [not_among | exact I].
  - right. cbn [fst snd]. split; [not_among|]. intros Hsec. split; [not_among | exact Hsec].
Qed.

Lemma turn_handshake p s r :
  (fst (turn p s r) = [Wrote "220 Ready to start TLS"; Handshake]
   /\ stays_secure (snd (turn p s r)))
  \/ (~ In Handshake (fst (turn p s r))
      /\ (secure s = true ->
          ~ In (Wrote "250-STARTTLS") (fst (turn p s r))
          /\ stays_secure (snd (turn p s r)))).
Proof.
  unfold turn. destruct (Scan r) as [[line r']|].
  - destruct (parseCmd line). apply dispatch_handshake.
  - right. cbn [fst snd]. split; [intros []|]. intros _. split; [intros [] | exact I].
Qed.

(** On a secure session nothing starts a handshake or offers the upgrade. *)
Lemma serve_secure fuel p s r evs :
  secure s = true ->
  serve fuel p s r = Some evs ->
  ~ In Handshake evs /\ ~ In (Wrote "250-STARTTLS") evs.
Proof.
  revert s r evs. induction fuel as [|fuel IH]; intros s r evs Hsec; simpl; [discriminate|].
  destruct (turn_handshake p s r) as [[Hup _]|[Hno Hs]].
  - exfalso. unfold turn in Hup. destruct (Scan r) as [[line r']|]; [|discriminate Hup].
    destruct (parseCmd line) as [cmd arg]. revert Hup. by_command cmd;
      rewrite ?Hsec; cbn [negb fst];
      repeat match goal with |- context [if ?b then _ else _] => destruct b end;
      try discriminate.
    destruct (handleDATA s r') as [[[body [e|]] s'] r'']; discriminate.
  - destruct (Hs Hsec) as [Hadv Hnext].
    destruct (turn p s r) as [evs1 [s' r'|]]; cbn [fst snd stays_secure] in *.
    + destruct (serve fuel p s' r') as [evs2|] eqn:E; simpl; [|discriminate].
      intros [= <-]. destruct (IH _ _ _ Hnext E) as [H1 H2].
      split; intros Hin; apply in_app_or in Hin as [Hin|Hin]; tauto.
    + intros [= <-]. tauto.
Qed.

Lemma split_at_first {A} (x : A) l1 l2 pre post :
  ~ In x l1 ->
  (l1 ++ l2 = pre ++ x :: post)%list ->
  exists pre', pre = (l1 ++ pre')%list /\ l2 = (pre' ++ x :: post)%list.
Proof.
  revert pre. induction l1 as [|a l1 IH]; intros pre Hno E.
  - exists pre. auto.
  - destruct pre as [|b pre]; cbn [app] in E.
    + injection E as -> _. exfalso. apply Hno. left. reflexivity.
    + injection E as -> E. destruct (IH pre) as (pre' & -> & ->).
      * intros Hin. apply Hno. right. exact Hin.
      * exact E.
      * exists pre'. auto.
Qed.

Lemma serve_one_handshake fuel p s r pre post :
  serve fuel p s r = Some (pre ++ Handshake :: post)%list ->
  ~ In Handshake pre /\ ~ In Handshake post /\ ~ In (Wrote "250-STARTTLS") post.
Proof.
  revert s r pre. induction fuel as [|fuel IH]; intros s r pre Hs; simpl in Hs; [discriminate|].
  destruct (turn_handshake p s r) as [[Hup Hnext]|[Hno _]];
    destruct (turn p s r) as [evs1 nxt]; cbn [fst snd] in *.
  - subst evs1.
    assert (exists evs2,
              ([Wrote "220 Ready to start TLS"; Handshake] ++ evs2
               = pre ++ Handshake :: post)%list
              /\ ~ In Handshake evs2 /\ ~ In (Wrote "250-STARTTLS") evs2)
      as (evs2 & E & Hh & Ha).
    { destruct nxt as [s' r'|].
      - destruct (serve fuel p s' r') as [evs2|] eqn:E; simpl in Hs; [|discriminate].
        injection Hs as Hs. exists evs2. split; [exact Hs|].
        apply (serve_secure _ _ _ _ _ Hnext E).
      - injection Hs as Hs. exists []. split; [exact Hs|]. split; intros []. }
    destruct (split_at_first Handshake [Wrote "220 Ready to start TLS"]
                (Handshake :: evs2) pre post) as (pre' & -> & E').
    { intros [H|[]]. discriminate H. }
    { exact E. }
    destruct pre' as [|b pre']; cbn [app] in E'.
    + injection E' as <-. repeat split; try assumption.
      intros [H|[]]. discriminate H.
    + injection E' as <- ->. exfalso. apply Hh. apply in_or_app. right. left. reflexivity.
  - destruct nxt as [s' r'|].
    + destruct (serve fuel p s' r') as [evs2|] eqn:E; simpl in Hs; [|discriminate].
      injection Hs as Hs.
      destruct (split_at_first Handshake evs1 evs2 pre post Hno Hs) as (pre' & -> & ->).
      destruct (IH _ _ _ E) as (H1 & H2 & H3).
      repeat split; try assumption.
      intros Hin. apply in_app_or in Hin as [Hin|Hin]; tauto.
    + injection Hs as ->. exfalso. apply Hno. apply in_or_app. right. left. reflexivity.
Qed.

(** X10. A connection sees at most one TLS handshake, and nothing
    written after it offers STARTTLS. *)
Theorem one_handshake_per_connection fuel r p pre post :
  handleConn fuel r p = Some (pre ++ Handshake :: post)%list ->
  ~ In Handshake pre /\ ~ In Handshake post /\ ~ In (Wrote "250-STARTTLS") post.
Proof.
  unfold handleConn. destruct (serve fuel p session0 r) as [evs|] eqn:E; simpl; [|discriminate].
  intros [= Hs]. destruct pre as [|b pre]; cbn [app] in Hs; [discriminate Hs|].
  injection Hs as <- ->. destruct (serve_one_handshake _ _ _ _ _ _ E) as (H1 & H2 & H3).
  repeat split; try assumption. intros [H|H]; [discriminate H | tauto].
Qed.

(** X5. Whenever a turn of the command loop answers with a single 5xx
    line and goes on, the session is what it was and exactly one line of
    input was used. *)
Theorem rejection_changes_nothing p s r reply s' r' :
  turn p s r = ([Wrote reply], Continue s' r') ->
  HasPrefix reply "5" = true ->
  s' = s /\ exists line, pending r = line :: pending r' /\ final r' = final r.
Proof.
  unfold turn, Scan. destruct r as [[|line rest] fin]; cbn [pending final]; [discriminate|].
  destruct (parseCmd line) as [cmd arg]. intros Hturn Hcode.
  assert (s' = s /\ r' = mkScanner rest fin) as [-> ->];
    [|split; [reflexivity | exists line; split; reflexivity]].
  revert Hturn. by_command cmd.
  - destruct (negb (secure s)); intros [= <- <- <-]; discriminate Hcode.
  - intros [= <- <- <-]; discriminate Hcode.
  - destruct (secure s); [intros [= <- <- <-]; auto|].
    destruct (upgradeToTLS p s) as [e|[r1 s1]]; discriminate.
  - destruct (negb (HasPrefix (ToUpper arg) "FROM:")); intros [= <- <- <-];
      [auto | discriminate Hcode].
  - destruct (String.eqb (step s) ""); [intros [= <- <- <-]; auto|].
    destruct (negb (HasPrefix (ToUpper arg) "TO:")); intros [= <- <- <-];
      [auto | discriminate Hcode].
  - destruct (negb (String.eqb (step s) "rcpt")); [intros [= <- <- <-]; auto|].
    destruct (handleDATA s _) as [[[body [e|]] s1] r1]; discriminate.
  - discriminate.
  - intros [= <- <- <-]; auto.
Qed.

(** X7. A read error before the terminator of the data phase is
    answered by 354 and 500 Error reading DATA; nothing is queued, and the
    handler returns at its next read. *)
Theorem read_error_ends_connection fuel p s line body e :
  fst (parseCmd line) = "DATA" ->
  step s = "rcpt" ->
  Forall (fun l => l <> ".") body ->
  serve (S (S fuel)) p s (mkScanner (line :: body) (Some e))
  = Some [Wrote "354 End with <CRLF>.<CRLF>"; Wrote "500 Error reading DATA"].
Proof.
  intros Hcmd Hstep Hbody.
  assert (turn p s (mkScanner (line :: body) (Some e))
          = ([Wrote "354 End with <CRLF>.<CRLF>"; Wrote "500 Error reading DATA"],
             Continue (mkSession (from s) (rcpts s) (data s ++ body) "rcpt" (secure s))
                      (mkScanner [] (Some e)))) as Ht.
  { rewrite turn_line, Hcmd. unfold dispatch. cbn [String.eqb Ascii.eqb Bool.eqb].
    rewrite Hstep. cbn [String.eqb Ascii.eqb Bool.eqb negb].
    unfold handleDATA. cbn [pending final]. rewrite collect_to_end by assumption.
    rewrite Hstep. reflexivity. }
  rewrite (serve_step _ _ _ _ _ _ _ Ht). reflexivity.
Qed.

End Upgrades.

Section StoredContent.







End StoredContent.

Section Stuffing.

Lemma replace_lf_dot_stuffed s :
  stuffed (replace_from 0 s (String LF ".") (String LF "..")) = true
  /\ stuffed (replace_from 1 s (String LF ".") (String LF "..")) = true
  /\ (HasPrefix (replace_from 0 s (String LF ".") (String LF "..")) "." = true ->
      HasPrefix s "." = true).
Proof.
  induction s as [|c s (IH0 & IH1 & IHp)]; [repeat split; auto|].
  split; [|split].
  - rewrite replace_from_here, lf_dot_prefix.
    destruct (bool_decide (c = LF) && HasPrefix s ".") eqn:Hm.
    + apply andb_true_iff in Hm as [Hc Hs]. apply bool_decide_eq_true in Hc. subst c.
      change (String.length (String LF ".") - 1)%nat with 1%nat.
      change (String LF ".." ++ replace_from 1 s (String LF ".") (String LF ".."))
        with (String LF (String "." (String "."
                (replace_from 1 s (String LF ".") (String LF ".."))))).
      cbn [stuffed HasPrefix].
      destruct (ascii_dec LF LF); [|contradiction].
      destruct (ascii_dec "." "."); [|contradiction].
      destruct (ascii_dec "." LF); [discriminate|].
      cbn [implb andb]. exact IH1.
    + cbn [stuffed]. rewrite IH0, andb_true_r.
      destruct (ascii_dec c LF) as [->|]; [|reflexivity].
      rewrite bool_decide_eq_true_2 in Hm by reflexivity. cbn [andb] in Hm.
      destruct (HasPrefix (replace_from 0 s (String LF ".") (String LF "..")) ".") eqn:Hp;
        [|reflexivity].
      rewrite (IHp eq_refl) in Hm. discriminate Hm.
  - rewrite replace_from_skip. exact IH0.
  - rewrite replace_from_here, lf_dot_prefix.
    destruct (bool_decide (c = LF) && HasPrefix s ".") eqn:Hm.
    + apply andb_true_iff in Hm as [Hc _]. apply bool_decide_eq_true in Hc. subst c.
      cbn [HasPrefix append]. intros H. exact H.
    + cbn [HasPrefix]. intros H. exact H.
Qed.

(** X11. In the escaped content of [deliver] a period that follows a
    line feed is always followed by a second period: the content holds no
    line feed, period, other byte, so no line after the first can be taken
    for the terminator. *)
Theorem dotted_is_stuffed content :
  stuffed (dotted content) = true
  /\ forall c, c <> "."%char ->
       Contains (dotted content) (String LF (String "." (String c ""))) = false.
Proof.
  assert (stuffed (dotted content) = true) as Hst by apply replace_lf_dot_stuffed.
  split; [exact Hst|]. intros c Hc. revert Hst.
  generalize (dotted content) as t. induction t as [|b t IH]; [reflexivity|].
  cbn [stuffed Contains]. intros H. apply andb_true_iff in H as [Hb Ht].
  rewrite (IH Ht), orb_false_r.
  cbn [HasPrefix]. destruct (ascii_dec b LF) as [->|]; [|reflexivity].
  destruct t as [|d t]; [reflexivity|].
  cbn [HasPrefix] in *. destruct (ascii_dec d "."); [|reflexivity].
  cbn [implb] in Hb. destruct t as [|d2 t]; [discriminate Hb|].
  destruct (ascii_dec d2 ".") as [->|]; [|discriminate Hb].
  destruct (ascii_dec "." c); [congruence | reflexivity].
Qed.

End Stuffing.

Section Dialogue.

Variable ReadResponse : Z -> Dlg unit.
Hypothesis ReadResponse_reads_only : reads_only ReadResponse.

Lemma writes_PrintfLine line : writes (PrintfLine line) [line] [].
Proof.
  intros tp. unfold PrintfLine. destruct (tx_room tp) as [[|n]|]; cbn [fst snd tx].
  - exists []. rewrite app_nil_r. split; [reflexivity|]. split; [apply prefix_nil|].
    intros u H. discriminate H.
  - exists [line]. auto.
  - exists [line]. auto.
Qed.

Lemma writes_ReadResponse expect : writes (ReadResponse expect) [] [].
Proof.
  intros tp. exists []. rewrite app_nil_r.
  split; [apply ReadResponse_reads_only|]. split; [reflexivity|]. intros. reflexivity.
Qed.

Lemma writes_bind (c1 c2 : Dlg unit) L1 L2 T :
  writes c1 L1 [] -> writes c2 L2 T -> writes (c1 >> c2) (L1 ++ L2)%list T.
Proof.
  intros H1 H2 tp. unfold bind.
  destruct (H1 tp) as (w1 & Htx1 & Hp1 & Hok1). rewrite app_nil_r in Hp1.
  destruct (c1 tp) as [[e|u] tp1]; cbn [fst snd] in *.
  - exists w1. split; [exact Htx1|]. split; [|intros u H; discriminate H].
    etrans; [exact Hp1|]. rewrite <- app_assoc. apply prefix_app_r. reflexivity.
  - assert (w1 = L1) as -> by (apply (anti_symm prefix); eauto).
    destruct (H2 tp1) as (w2 & Htx2 & Hp2 & Hok2).
    exists (L1 ++ w2)%list. split; [rewrite Htx2, Htx1, app_assoc; reflexivity|].
    split; [rewrite <- app_assoc; apply prefix_app, Hp2|].
    intros u' H. apply prefix_app, (Hok2 u' H).
Qed.

Lemma writes_ret : writes (ret tt) [] [].
Proof.
  intros tp. exists []. rewrite app_nil_r. cbn.
  split; [reflexivity|]. split; [reflexivity|]. intros. reflexivity.
Qed.

Lemma writes_send_rcpts recipients :
  writes (send_rcpts ReadResponse recipients)
         ((fun r => "RCPT TO:<" ++ r ++ ">") <$> recipients) [].
Proof.
  induction recipients as [|r rs IH]; [apply writes_ret|].
  cbn [send_rcpts fmap list_fmap].
  apply (writes_bind _ _ [_] _); [apply writes_PrintfLine|].
  apply (writes_bind _ _ [] _); [apply writes_ReadResponse | exact IH].
Qed.

Lemma writes_quit :
  writes (fun tp => (inr tt, snd (PrintfLine "QUIT" tp))) [] ["QUIT"].
Proof.
  intros tp. unfold PrintfLine. destruct (tx_room tp) as [[|n]|]; cbn [fst snd tx].
  - exists []. rewrite app_nil_r. split; [reflexivity|]. split; [apply prefix_nil|].
    intros. reflexivity.
  - exists ["QUIT"]. split; [reflexivity|]. split; [reflexivity | intros; apply prefix_nil].
  - exists ["QUIT"]. split; [reflexivity|]. split; [reflexivity | intros; apply prefix_nil].
Qed.

Lemma writes_transfer m :
  writes (transfer ReadResponse m) (envelope_and_content m) ["QUIT"].
Proof.
  unfold transfer, envelope_and_content.
  apply (writes_bind _ _ [_] _); [apply writes_PrintfLine|].
  apply (writes_bind _ _ [] _); [apply writes_ReadResponse|].
  apply writes_bind; [apply writes_send_rcpts|].
  apply (writes_bind _ _ [_] [_]); [apply writes_PrintfLine|].
  apply (writes_bind _ _ [] [_]); [apply writes_ReadResponse|].
  apply (writes_bind _ _ [_] []); [apply writes_PrintfLine|].
  apply (writes_bind _ _ [] []); [apply writes_ReadResponse|].
  apply writes_quit.
Qed.

(** X13. With a reader that only reads, the envelope and the content go
    out in one fixed order: MAIL FROM, a RCPT TO for each recipient, DATA,
    the escaped content with its terminator, QUIT.  A transfer that fails
    has written the first few of these lines and nothing else (no DATA after
    a refused recipient); a transfer that succeeds has written all of them
    up to the terminator. *)
Theorem transfer_writes_in_order m tp :
  exists w,
    tx (snd (transfer ReadResponse m tp)) = (tx tp ++ w)%list
    /\ w `prefix_of` (envelope_and_content m ++ ["QUIT"])%list
    /\ (forall u, fst (transfer ReadResponse m tp) = inr u ->
        envelope_and_content m `prefix_of` w).
Proof. apply writes_transfer. Qed.

(** X14. When the peer offers STARTTLS and the handshake fails,
    [deliver] fails: after EHLO at most STARTTLS is written in the clear,
    and the message is not sent over the plain connection. *)
Theorem no_fallback_to_plaintext net host m tp tp1 tp2 :
  ReadResponse 220 tp = (inr tt, tp1) ->
  ehlo tp1 = ((true, None), tp2) ->
  (forall c, exists e, tlsClient net host c = inl e) ->
  (exists e, fst (dialogue ReadResponse net host m tp) = inl e)
  /\ exists w,
       tx (snd (dialogue ReadResponse net host m tp)) = (tx tp2 ++ w)%list
       /\ w `prefix_of` ["STARTTLS"].
Proof.
  intros Hread Hehlo Htls.
  rewrite (dialogue_after_ehlo ReadResponse net host m tp tp1 true tp2 Hread Hehlo).
  unfold upgrade, bind.
  destruct (writes_PrintfLine "STARTTLS" tp2) as (w1 & Htx1 & Hp1 & _).
  destruct (PrintfLine "STARTTLS" tp2) as [[e|u] tp3]; cbn [fst snd] in *.
  { split; [eauto|]. exists w1. auto. }
  pose proof (proj1 (ReadResponse_reads_only 220 tp3)) as Htx2.
  destruct (ReadResponse 220 tp3) as [[e|u'] tp4]; cbn [fst snd] in *.
  { split; [eauto|]. exists w1. rewrite Htx2. auto. }
  destruct (Htls tp4) as [e ->]. cbn [fst snd].
  split; [eauto|]. exists w1. rewrite Htx2. auto.
Qed.

End Dialogue.

Section EhloErrors.

Lemma ehlo_loop_truncated b e conts :
  Forall (fun l => HasPrefix l "250-" = true) conts ->
  ehlo_loop b e conts
  = ((b || existsb (fun l => Contains l "STARTTLS") conts, Some e), []).
Proof.
  intros Hconts. revert b. induction Hconts as [|l conts Hl _ IH]; intros b;
    cbn [ehlo_loop existsb]; [rewrite orb_false_r; reflexivity|].
  rewrite Hl, IH. destruct (Contains l "STARTTLS"), b; reflexivity.
Qed.

Lemma ehlo_loop_unexpected b e conts bad rest :
  Forall (fun l => HasPrefix l "250-" = true) conts ->
  HasPrefix bad "250-" = false -> HasPrefix bad "250 " = false ->
  ehlo_loop b e (conts ++ bad :: rest)
  = ((false, Some ("unexpected EHLO line: " ++ bad)), rest).
Proof.
  intros Hconts H1 H2. revert b.
  induction Hconts as [|l conts Hl _ IH]; intros b; cbn [ehlo_loop app].
  - rewrite H1, H2. reflexivity.
  - rewrite Hl. apply IH.
Qed.

(** X12. [ehlo] fails in three ways.  When the greeting cannot be
    written it reads nothing; when the reply ends before its last line the
    read error is returned and all lines are used up; when a line is neither
    a continuation 250-... nor a last line 250 ..., the error names that
    line, the report is negative and the lines after it stay unread. *)
Theorem ehlo_failures tp conts :
  Forall (fun l => HasPrefix l "250-" = true) conts ->
  (tx_room tp = Some O ->
   ehlo tp = ((false, Some "write: broken pipe"), tp))
  /\ (tx_room tp <> Some O ->
      (rx tp = conts ->
       exists supportsTLS tp',
         ehlo tp = ((supportsTLS, Some (rx_end tp)), tp') /\ rx tp' = [])
      /\ (forall bad rest,
            rx tp = (conts ++ bad :: rest)%list ->
            HasPrefix bad "250-" = false ->
            HasPrefix bad "250 " = false ->
            exists tp',
              ehlo tp = ((false, Some ("unexpected EHLO line: " ++ bad)), tp')
              /\ rx tp' = rest)).
Proof.
  intros Hconts. split.
  - intros Hroom. unfold ehlo, PrintfLine. rewrite Hroom. reflexivity.
  - intros Hroom. split.
    + intros Hrx. unfold ehlo, PrintfLine.
      destruct (tx_room tp) as [[|n]|]; [congruence| |]; cbn [rx rx_end tx tx_room];
        rewrite Hrx, ehlo_loop_truncated by assumption; eexists _, _; split; reflexivity.
    + intros bad rest Hrx H1 H2. unfold ehlo, PrintfLine.
      destruct (tx_room tp) as [[|n]|]; [congruence| |]; cbn [rx rx_end tx tx_room];
        rewrite Hrx, ehlo_loop_unexpected by assumption; eexists; split; reflexivity.
Qed.

End EhloErrors.

Section Routing.

Variable ReadResponse : Z -> Dlg unit.

Lemma LastIndexByte_lacks c s : lacks c s -> LastIndexByte s c = -1.
Proof.
  induction s as [|b s IH]; intros Hs; [reflexivity|]. destruct Hs as [Hb Hs].
  cbn [LastIndexByte]. rewrite (IH Hs). cbn.
  destruct (ascii_dec b c); [contradiction | reflexivity].
Qed.

Lemma LastIndexByte_last c s t :
  lacks c t -> LastIndexByte (s ++ String c t) c = Z.of_nat (String.length s).
Proof.
  intros Ht. induction s as [|b s IH].
  - rewrite append_nil. cbn [LastIndexByte]. rewrite (LastIndexByte_lacks c t Ht). cbn.
    destruct (ascii_dec c c); [reflexivity | contradiction].
  - rewrite append_cons. cbn [LastIndexByte]. rewrite IH.
    destruct (Z.leb_spec 0 (Z.of_nat (String.length s))); [|lia].
    cbn [String.length]. lia.
Qed.

(** X15. The mail exchanger is looked up for the text after the last
    at-sign of the first recipient, the other recipients playing no part; an
    address without an at-sign is its own domain; and when the lookup fails,
    gives no record or gives an empty host, [deliver] returns the error no
    MX found for that domain. *)
Theorem routing_by_first_recipient net m r0 others :
  Rcpts m = r0 :: others ->
  (forall mailbox domain,
     r0 = mailbox ++ "@" ++ domain -> lacks "@"%char domain ->
     mx_domain m = Some domain)
  /\ (lacks "@"%char r0 -> mx_domain m = Some r0)
  /\ (forall domain,
        mx_domain m = Some domain ->
        match LookupMX net domain with
        | Some (host :: _) => host = ""
        | _ => True
        end ->
        deliver ReadResponse net m = Returned (Some ("no MX found for " ++ domain))).
Proof.
  intros Hr. unfold mx_domain. rewrite Hr. cbn [lookup list_lookup mbind option_bind].
  split; [|split].
  - intros mailbox domain -> Hd.
    change (mailbox ++ "@" ++ domain) with (mailbox ++ String "@" domain).
    rewrite LastIndexByte_last by assumption.
    replace (Z.to_nat (Z.of_nat (String.length mailbox) + 1))
      with (String.length mailbox + 1)%nat by lia.
    rewrite drop_bytes_app_S. reflexivity.
  - intros Hl. rewrite LastIndexByte_lacks by assumption. reflexivity.
  - intros domain [= <-] Hmx. unfold deliver, mx_domain. rewrite Hr.
    cbn [lookup list_lookup mbind option_bind].
    destruct (LookupMX net _) as [[|host hosts]|]; [reflexivity | | reflexivity].
    subst host. reflexivity.
Qed.

End Routing.

Section QueueFacts.

Variable writable : string -> bool.



(** What [enqueue] does, by the outcome of the write. *)
Lemma enqueue_cases c (spool : Spool) m :
  let name := file_name (wrap64 (reading c (ticks c))) (From m) in
  let m' := mkMessage name (From m) (Rcpts m) (Data m) (Attempts m) (LastError m)
                      (reading c (S (ticks c))) in
  enqueue writable c spool m
  = if writable name
    then (None, m', <[name := m']> spool, mkClock (reading c) (S (S (ticks c))))
    else (Some ("open " ++ name), m', spool, mkClock (reading c) (S (S (ticks c)))).
Proof. unfold enqueue, Now. cbn. destruct (writable _); reflexivity. Qed.




Lemma queue_events_app c (spool : Spool) evs1 evs2 :
  queue_events writable c spool (evs1 ++ evs2)
  = queue_events writable (snd (queue_events writable c spool evs1))
                 (fst (queue_events writable c spool evs1)) evs2.
Proof.
  revert c spool. induction evs1 as [|ev evs1 IH]; intros c spool; [reflexivity|].
  destruct ev as [l| |f rc b]; cbn [app queue_events]; [apply IH..|].
  destruct (queueMessage writable c spool f rc b) as [spool1 c1]. apply IH.
Qed.

Lemma queue_events_replies c (spool : Spool) n :
  queue_events writable c spool (repeat (Wrote "250 OK") n) = (spool, c).
Proof. induction n as [|n IH]; [reflexivity | exact IH]. Qed.

(** X17. When the spool file cannot be created, the transaction is
    still answered by 250 Queued and the spool is what it was:
    [queueMessage] drops the error of [enqueue]. *)
Theorem acknowledged_but_lost p sender recipients body c (spool : Spool) :
  recipients <> [] ->
  Forall (fun l => l <> ".") body ->
  writable (file_name (wrap64 (reading c (ticks c))) sender) = false ->
  exists evs,
    handleConn (S (S (S (List.length recipients))))
               (mkScanner (transaction sender recipients body) None) p = Some evs
    /\ List.last (replies evs) "" = "250 Queued"
    /\ fst (queue_events writable c spool evs) = spool.
Proof.
  intros Hne Hbody Hw. unfold handleConn.
  pose proof (serve_transaction 1 p session0 sender recipients body [] None Hne Hbody) as Hs.
  rewrite app_nil_r in Hs.
  replace (S (S (List.length recipients + 1))) with (S (S (S (List.length recipients))))
    in Hs by lia.
  rewrite Hs. cbn [serve turn Scan pending fmap option_fmap option_map].
  eexists. split; [reflexivity|]. rewrite app_nil_r. split.
  - cbn [replies flat_map app]. fold (replies (repeat (Wrote "250 OK") (List.length recipients) ++
      [Wrote "354 End with <CRLF>.<CRLF>";
       QueueMessage sender recipients (Join body CRLF ++ CRLF); Wrote "250 Queued"])).
    rewrite replies_app. cbn [replies flat_map app].
    change ("220 smtpmini ESMTP ready" :: "250 OK"
              :: replies (repeat (Wrote "250 OK") (List.length recipients))
              ++ ["354 End with <CRLF>.<CRLF>"; "250 Queued"])%list
      with ((("220 smtpmini ESMTP ready" :: "250 OK"
               :: replies (repeat (Wrote "250 OK") (List.length recipients)))
              ++ ["354 End with <CRLF>.<CRLF>"; "250 Queued"]))%list.
    change ["354 End with <CRLF>.<CRLF>"; "250 Queued"]
      with (["354 End with <CRLF>.<CRLF>"] ++ ["250 Queued"])%list.
    rewrite app_assoc. apply last_last.
  - cbn [queue_events app]. rewrite queue_events_app, queue_events_replies.
    cbn [fst snd queue_events]. unfold queueMessage. rewrite enqueue_cases. cbn zeta.
    cbn [From]. rewrite Hw. reflexivity.
Qed.

End QueueFacts.

Section SchedulerInvariants.

Variable writable : string -> bool.
Variable ReadResponse : Z -> Dlg unit.
Variable net : Message -> Net.




(** X19. For a record that is due and whose incremented counter the
    backoff can express, a failure adds 1 to the counter and sets the next
    try to now plus the counter times 15 minutes.  With a counter that was
    not negative the next try moves forward and the record is not due for
    at least 15 minutes; with a negative counter, as a spool file can hold
    it, the record stays due. *)
Theorem backoff_moves_next_try now e m :
  NextTry m <= now ->
  Z.abs (Attempts m + 1) <= max_backoff_attempts ->
  Attempts (deferred now e m) = Attempts m + 1
  /\ NextTry (deferred now e m) = now + (Attempts m + 1) * (15 * Minute)
  /\ (0 <= Attempts m ->
      NextTry m < NextTry (deferred now e m)
      /\ forall later, later < now + 15 * Minute ->
           (later <? NextTry (deferred now e m)) = true)
  /\ (Attempts m < 0 -> NextTry (deferred now e m) <= now).
Proof.
  intros Hdue Habs. unfold deferred. cbn [Attempts NextTry].
  assert (wrap64 (Attempts m + 1) = Attempts m + 1) as ->.
  { apply wrap64_small. unfold max_backoff_attempts in Habs. lia. }
  rewrite backoff_exact by assumption. unfold Minute.
  split; [reflexivity|]. split; [reflexivity|]. split.
  - intros Hpos. split; [lia|]. intros later Hl. apply Z.ltb_lt. lia.
  - intros Hneg. lia.
Qed.




End SchedulerInvariants.

Section BodyLines.

Implicit Types (s : session) (r : Scanner) (p : TLSPeer).

Ltac by_command cmd :=
  unfold dispatch;
  destruct (String.eqb cmd "EHLO"); [|
  destruct (String.eqb cmd "HELO"); [|
  destruct (String.eqb cmd "STARTTLS"); [|
  destruct (String.eqb cmd "MAIL"); [|
  destruct (String.eqb cmd "RCPT"); [|
  destruct (String.eqb cmd "DATA"); [|
  destruct (String.eqb cmd "QUIT")]]]]]].


End BodyLines.

Section Rest.

Variable writable : string -> bool.
Variable ReadResponse : Z -> Dlg unit.
Variable net : Message -> Net.


End Rest.

(** ** The further properties at work *)

Section Witnesses.

Lemma parseCmd_splits_at_first_space_witness :
  parseCmd ("rcpt" ++ " " ++ "TO:<a b>") = (ToUpper "rcpt", "TO:<a b>")
  /\ parseCmd "rcpt" = (ToUpper "rcpt", "")
  /\ fst (parseCmd (ToUpper "rcpt" ++ " " ++ "TO:<a b>"))
     = fst (parseCmd ("rcpt" ++ " " ++ "TO:<a b>")).
Proof.
  apply (parseCmd_splits_at_first_space "rcpt" "TO:<a b>").
  simpl. repeat split; discriminate.
Defined.

Lemma stripAddr_bracketed_witness :
  stripAddr ("  " ++ "<" ++ "c@d" ++ ">" ++ " ") = "c@d".
Proof.
  apply (stripAddr_bracketed "  " "c@d" " "); simpl; repeat split; reflexivity.
Defined.


Lemma replies_fixed_and_framed_witness :
  let evs := [Wrote "220 smtpmini ESMTP ready"; Wrote "250 Hello";
              Wrote "503 Need RCPT TO first"; Wrote "221 Bye"] in
  Forall (fun l => In l reply_texts) (replies evs)
  /\ ScanLines "" (wire (replies evs)) = replies evs.
Proof.
  apply (replies_fixed_and_framed 5 (mkScanner ["HELO x"; "DATA"; "QUIT"] None)
           (mkTLSPeer None (mkScanner [] None))).
  vm_compute. reflexivity.
Defined.

Lemma one_handshake_per_connection_witness :
  let pre := [Wrote "220 smtpmini ESMTP ready"; Wrote "220 Ready to start TLS"] in
  let post := [Wrote "250 smtpmini"; Wrote "503 Already under TLS"; Wrote "221 Bye"] in
  ~ In Handshake pre /\ ~ In Handshake post /\ ~ In (Wrote "250-STARTTLS") post.
Proof.
  apply (one_handshake_per_connection 9 (mkScanner ["STARTTLS"] None)
           (mkTLSPeer None (mkScanner ["EHLO x"; "STARTTLS"; "QUIT"] None))).
  vm_compute. reflexivity.
Defined.

Lemma rejection_changes_nothing_witness :
  let s := mkSession "a@b" ["c@d"] [] "rcpt" false in
  s = s
  /\ exists line, pending (mkScanner ["MAIL TO:<x>"; "DATA"] None)
                  = line :: pending (mkScanner ["DATA"] None)
                  /\ final (mkScanner ["DATA"] None) = final (mkScanner ["MAIL TO:<x>"; "DATA"] None).
Proof.
  apply (rejection_changes_nothing (mkTLSPeer None (mkScanner [] None))
           (mkSession "a@b" ["c@d"] [] "rcpt" false)
           (mkScanner ["MAIL TO:<x>"; "DATA"] None)
           "501 Syntax: MAIL FROM:<address>"); reflexivity.
Defined.

Lemma read_error_ends_connection_witness :
  serve 2 (mkTLSPeer None (mkScanner [] None)) (mkSession "a@b" ["c@d"] [] "rcpt" false)
        (mkScanner ["DATA"; "half a"] (Some "read: connection reset by peer"))
  = Some [Wrote "354 End with <CRLF>.<CRLF>"; Wrote "500 Error reading DATA"].
Proof.
  apply (read_error_ends_connection 0 (mkTLSPeer None (mkScanner [] None))
           (mkSession "a@b" ["c@d"] [] "rcpt" false) "DATA" ["half a"]).
  - reflexivity.
  - reflexivity.
  - repeat constructor; discriminate.
Defined.


Lemma dotted_is_stuffed_witness :
  stuffed (dotted ("a" ++ CRLF ++ "." ++ CRLF)) = true
  /\ Contains (dotted ("a" ++ CRLF ++ "." ++ CRLF)) (String LF (String "." (String CR "")))
     = false.
Proof.
  split.
  - apply (proj1 (dotted_is_stuffed ("a" ++ CRLF ++ "." ++ CRLF))).
  - apply (proj2 (dotted_is_stuffed ("a" ++ CRLF ++ "." ++ CRLF))). discriminate.
Defined.

Lemma line_reply_reads_only : reads_only line_reply.
Proof.
  intros expect tp. unfold line_reply, ReadLine.
  destruct (rx tp) as [|l rest]; [split; reflexivity|].
  destruct (HasPrefix l _); split; reflexivity.
Qed.

Lemma transfer_writes_in_order_witness :
  exists w,
    tx (snd (transfer line_reply to_d
               (mkConn ["250 OK"; "550 no such user"] "EOF" ["EHLO smtpmini.local"] None)))
    = (["EHLO smtpmini.local"] ++ w)%list
    /\ w `prefix_of` (envelope_and_content to_d ++ ["QUIT"])%list
    /\ (forall u,
          fst (transfer line_reply to_d
                 (mkConn ["250 OK"; "550 no such user"] "EOF" ["EHLO smtpmini.local"] None))
          = inr u ->
          envelope_and_content to_d `prefix_of` w).
Proof.
  apply (transfer_writes_in_order line_reply line_reply_reads_only to_d
           (mkConn ["250 OK"; "550 no such user"] "EOF" ["EHLO smtpmini.local"] None)).
Defined.

Lemma no_fallback_to_plaintext_witness :
  (exists e, fst (dialogue line_reply net_d "mx.d" to_d offering_peer) = inl e)
  /\ exists w,
       tx (snd (dialogue line_reply net_d "mx.d" to_d offering_peer))
       = (["EHLO smtpmini.local"] ++ w)%list
       /\ w `prefix_of` ["STARTTLS"].
Proof.
  apply (no_fallback_to_plaintext line_reply line_reply_reads_only net_d "mx.d" to_d
           offering_peer
           (mkConn ["250-mx.d"; "250-STARTTLS"; "250 HELP"; "220 go ahead"] "EOF" [] None)
           (mkConn ["220 go ahead"] "EOF" ["EHLO smtpmini.local"] None)).
  - vm_compute. reflexivity.
  - vm_compute. reflexivity.
  - intros c. eexists. reflexivity.
Defined.

Lemma ehlo_failures_witness :
  let tp := mkConn ["250-mx.d"; "250-STARTTLS"; "421 closing"; "250 HELP"] "EOF" [] None in
  exists tp',
    ehlo tp = ((false, Some ("unexpected EHLO line: " ++ "421 closing")), tp')
    /\ rx tp' = ["250 HELP"].
Proof.
  apply (proj2 (proj2 (ehlo_failures
                  (mkConn ["250-mx.d"; "250-STARTTLS"; "421 closing"; "250 HELP"] "EOF" [] None)
                  ["250-mx.d"; "250-STARTTLS"] ltac:(repeat constructor))
                ltac:(discriminate))
           "421 closing" ["250 HELP"]); reflexivity.
Defined.

Lemma routing_by_first_recipient_witness :
  mx_domain (mkMessage "1-a_b.json" "a@b" ["odd@name@d"; "x@elsewhere"] "" 0 "" 1) = Some "d".
Proof.
  apply (proj1 (routing_by_first_recipient line_reply net_d
                  (mkMessage "1-a_b.json" "a@b" ["odd@name@d"; "x@elsewhere"] "" 0 "" 1)
                  "odd@name@d" ["x@elsewhere"] eq_refl) "odd@name" "d").
  - reflexivity.
  - simpl. repeat split; discriminate.
Defined.


Lemma acknowledged_but_lost_witness :
  exists evs,
    handleConn (S (S (S (List.length ["c@d"]))))
               (mkScanner (transaction "a/b@c" ["c@d"] ["hi"]) None)
               (mkTLSPeer None (mkScanner [] None)) = Some evs
    /\ List.last (replies evs) "" = "250 Queued"
    /\ fst (queue_events (fun name => negb (Contains name "/")) (clock_from 100)
                         two_records evs) = two_records.
Proof.
  apply (acknowledged_but_lost (fun name => negb (Contains name "/"))
           (mkTLSPeer None (mkScanner [] None)) "a/b@c" ["c@d"] ["hi"]
           (clock_from 100) two_records).
  - discriminate.
  - repeat constructor; discriminate.
  - vm_compute. reflexivity.
Defined.



Lemma backoff_moves_next_try_witness :
  Attempts (deferred 100 "no MX found for nowhere" to_nowhere) = 2 + 1
  /\ NextTry (deferred 100 "no MX found for nowhere" to_nowhere) = 100 + (2 + 1) * (15 * Minute)
  /\ (0 <= 2 ->
      7 < NextTry (deferred 100 "no MX found for nowhere" to_nowhere)
      /\ forall later, later < 100 + 15 * Minute ->
           (later <? NextTry (deferred 100 "no MX found for nowhere" to_nowhere)) = true)
  /\ (2 < 0 -> NextTry (deferred 100 "no MX found for nowhere" to_nowhere) <= 100).
Proof.
  apply (backoff_moves_next_try 100 "no MX found for nowhere" to_nowhere).
  - vm_compute. discriminate.
  - vm_compute. discriminate.
Defined.



Lemma argument_slices_in_range_witness :
  (5 <= String.length "from:<a@b>")%nat /\ (3 <= String.length "To:<c@d>")%nat.
Proof.
  split.
  - apply (proj1 (argument_slices_in_range "from:<a@b>")). reflexivity.
  - apply (proj2 (argument_slices_in_range "To:<c@d>")). reflexivity.
Defined.


End Witnesses.
